(** * Metabase: scheduled notification jobs and permission lookups

    A shallow embedding of

    - the Clojure namespace [metabase.task.follow-up-emails] (the
      [FollowUpEmail] and [AbandonmentEmail] Quartz jobs), and
    - the TypeScript permission readers [getDetailsPermission] and
      [getApplicationPermission],

    with the properties the specification states about them. *)

From Stdlib Require Import ZArith Lia.
From stdpp Require Import base option list strings gmap pretty.

(* ===================================================================== *)
(** * metabase.task.follow-up-emails *)
(* ===================================================================== *)

Module FollowUpEmails.

Local Open Scope Z_scope.

(** ** Time *)

(** A [java.time.temporal.Temporal] is a point on the instance clock,
    counted in seconds; a period or duration is a number of seconds. *)
Definition Temporal : Type := Z.
Definition Duration : Type := Z.

(** [(t/weeks n)] *)
Definition weeks (n : Z) : Duration := n * 604800.

(** Modelled from the spec: [u.date/older-than?] lives in
    [metabase.util.date-2], which is not part of the sources at hand.  The
    specification reads the call [(older-than? t d)] as "now - t >= d"
    ("now - creation >= 2 weeks", "is >= 2 weeks old"); the clock value
    that the helper obtains itself is passed in as [now]. *)
Definition older_than (now t : Temporal) (d : Duration) : bool :=
  d <=? now - t.

(** ** Data *)

(** A row of the [User] model, with the columns the namespace reads. *)
Record User : Type := mkUser {
  email : string;
  date_joined : Temporal;
  is_superuser : bool;
  is_active : bool
}.

Definition Throwable : Type := string.

(** What a run leaves behind outside the settings store: calls of
    [messages/send-follow-up-email!] (with the exception it threw, if any)
    and log lines. *)
Inductive Event : Type :=
| SendAttempt (address template : string) (thrown : option Throwable)
| LogError (message : string) (e : Throwable)
| LogInfo (message : string).

(** Everything a job run can read or change. *)
Record World : Type := mkWorld {
  clock : Temporal;                                   (* (t/offset-date-time) *)
  User_table : list User;
  Activity_table : list Temporal;                     (* :timestamp column *)
  ViewLog_table : list Temporal;                      (* :timestamp column *)
  setting_follow_up_email_sent : bool;
  setting_abandonment_email_sent : bool;
  smtp_configured : bool;                             (* email/email-configured? *)
  setting_anon_tracking_enabled : bool;
  delivery : string -> string -> option Throwable;    (* what a send would throw *)
  journal : list Event
}.

Definition with_follow_up_email_sent (v : bool) (w : World) : World :=
  mkWorld (clock w) (User_table w) (Activity_table w) (ViewLog_table w)
          v (setting_abandonment_email_sent w)
          (smtp_configured w) (setting_anon_tracking_enabled w)
          (delivery w) (journal w).

Definition with_abandonment_email_sent (v : bool) (w : World) : World :=
  mkWorld (clock w) (User_table w) (Activity_table w) (ViewLog_table w)
          (setting_follow_up_email_sent w) v
          (smtp_configured w) (setting_anon_tracking_enabled w)
          (delivery w) (journal w).

Definition record_event (e : Event) (w : World) : World :=
  mkWorld (clock w) (User_table w) (Activity_table w) (ViewLog_table w)
          (setting_follow_up_email_sent w) (setting_abandonment_email_sent w)
          (smtp_configured w) (setting_anon_tracking_enabled w)
          (delivery w) (journal w ++ [e]).

(** ** Computations: state and exceptions *)

Inductive Outcome (A : Type) : Type :=
| Returned (a : A)
| Threw (e : Throwable).
Arguments Returned {A} a.
Arguments Threw {A} e.

Definition M (A : Type) : Type := World -> Outcome A * World.

Definition ret {A} (a : A) : M A := fun w => (Returned a, w).

Definition bind {A B} (c : M A) (k : A -> M B) : M B :=
  fun w =>
    match c w with
    | (Returned a, w1) => k a w1
    | (Threw e, w1) => (Threw e, w1)
    end.

Notation "'do' x <- c ; k" := (bind c (fun x => k))
  (at level 10, x pattern, c at level 100, k at level 200).

Definition gets {A} (f : World -> A) : M A := fun w => (Returned (f w), w).
Definition modify (f : World -> World) : M unit := fun w => (Returned tt, f w).

(** [(try body (catch Throwable e (handler e)) (finally fin))]: the value is
    the body's, or the handler's when the body threw; [fin] runs last on
    every path, and an exception of the handler leaves after [fin]. *)
Definition try_catch_finally {A} (body : M A) (handler : Throwable -> M A)
    (fin : M unit) : M A :=
  fun w =>
    let '(r, w1) :=
      match body w with
      | (Returned a, w1) => (Returned a, w1)
      | (Threw e, w1) => handler e w1
      end in
    match fin w1 with
    | (Returned _, w2) => (r, w2)
    | (Threw e, w2) => (Threw e, w2)
    end.

(** [(when c body)] and [(when-let [x o] body)]; both yield nil otherwise. *)
Definition when_ (c : bool) (body : M unit) : M unit :=
  if c then body else ret tt.

Definition when_let {A} (o : option A) (body : A -> M unit) : M unit :=
  match o with
  | Some x => body x
  | None => ret tt
  end.

(** ** Collaborators *)

Definition offset_date_time : M Temporal := gets clock.
Definition email_configured : M bool := gets smtp_configured.
Definition anon_tracking_enabled : M bool := gets setting_anon_tracking_enabled.

(** [messages/send-follow-up-email!]: one attempt, which may throw. *)
Definition messages_send_follow_up_email (address template : string) : M unit :=
  fun w =>
    match delivery w address template with
    | None => (Returned tt, record_event (SendAttempt address template None) w)
    | Some e => (Threw e, record_event (SendAttempt address template (Some e)) w)
    end.

Definition log_error (message : string) (e : Throwable) : M unit :=
  modify (record_event (LogError message e)).
Definition log_info (message : string) : M unit :=
  modify (record_event (LogInfo message)).

(** [{:order-by [:date_joined]}] followed by select-one: the row with the
    least [date_joined], the first such row of the table on a tie. *)
Fixpoint first_by_date_joined (rows : list User) : option User :=
  match rows with
  | [] => None
  | u :: rest =>
      match first_by_date_joined rest with
      | Some v => if date_joined v <? date_joined u then Some v else Some u
      | None => Some u
      end
  end.

Definition select_one (where_ : User -> bool) (rows : list User) : option User :=
  first_by_date_joined (List.filter where_ rows).

Definition select_one_User (where_ : User -> bool) : M (option User) :=
  gets (fun w => select_one where_ (User_table w)).

(** SQL [max(column)]: NULL over an empty table. *)
Fixpoint sql_max (column : list Temporal) : option Temporal :=
  match column with
  | [] => None
  | t :: rest =>
      match sql_max rest with
      | Some m => Some (Z.max t m)
      | None => Some t
      end
  end.

(** ** send follow-up emails *)

Definition follow_up_email_sent : M bool := gets setting_follow_up_email_sent.
Definition follow_up_email_sent_set (v : bool) : M unit :=
  modify (with_follow_up_email_sent v).

Definition send_follow_up_email : M unit :=
  do configured <- email_configured ;
  do tracking <- anon_tracking_enabled ;
  do sent <- follow_up_email_sent ;
  when_ (configured && tracking && negb sent)
    (do admin <- select_one_User (fun u => is_superuser u && is_active u) ;
     when_let admin (fun admin =>
       try_catch_finally
         (messages_send_follow_up_email (email admin) "follow-up")
         (fun e => log_error "Problem sending follow-up email:" e)
         (follow_up_email_sent_set true))).

Definition instance_creation_timestamp : M (option Temporal) :=
  do first <- select_one_User (fun _ => true) ;
  ret (date_joined <$> first).

Definition FollowUpEmail : M unit :=
  do sent <- follow_up_email_sent ;
  when_ (negb sent)
    (do created <- instance_creation_timestamp ;
     when_let created (fun instance_created =>
       do now <- offset_date_time ;
       when_ (older_than now instance_created (weeks 2))
         send_follow_up_email)).

(** ** send abandoment emails *)

Definition abandonment_email_sent : M bool := gets setting_abandonment_email_sent.
Definition abandonment_email_sent_set (v : bool) : M unit :=
  modify (with_abandonment_email_sent v).

(** The four-argument arity; [now] is the clock that [older-than?] reads. *)
Definition should_send_abandoment_email_4 (now : Temporal)
    (instance_creation last_user last_activity last_view : option Temporal) : bool :=
  match instance_creation with
  | None => false
  | Some created =>
      older_than now created (weeks 4)
      && match last_user with
         | None => true
         | Some t => older_than now t (weeks 2)
         end
      && match last_activity with
         | None => true
         | Some t => older_than now t (weeks 2)
         end
      && match last_view with
         | None => true
         | Some t => older_than now t (weeks 2)
         end
  end.

(** The zero-argument arity: the three [max] rows of the union query, then
    the creation timestamp. *)
Definition should_send_abandoment_email : M bool :=
  do last_user <- gets (fun w => sql_max (date_joined <$> User_table w)) ;
  do last_activity <- gets (fun w => sql_max (Activity_table w)) ;
  do last_view <- gets (fun w => sql_max (ViewLog_table w)) ;
  do created <- instance_creation_timestamp ;
  do now <- offset_date_time ;
  ret (should_send_abandoment_email_4 now created last_user last_activity last_view).

Definition send_abandoment_email_if_needed : M unit :=
  do first <- select_one_User (fun u => is_superuser u) ;
  when_let (email <$> first) (fun admin_email =>
    do should <- should_send_abandoment_email ;
    when_ should
      (do _ <- log_info "Sending abandonment email!" ;
       try_catch_finally
         (messages_send_follow_up_email admin_email "abandon")
         (fun e => log_error "Problem sending abandonment email" e)
         (abandonment_email_sent_set true))).

Definition AbandonmentEmail : M unit :=
  do sent <- abandonment_email_sent ;
  when_ (negb sent)
    (do configured <- email_configured ;
     do tracking <- anon_tracking_enabled ;
     when_ (configured && tracking)
       send_abandoment_email_if_needed).

(** ** Observations used in the statements *)

(** The addresses and templates of the send attempts in a journal, oldest
    first. *)
Definition send_attempts (j : list Event) : list (string * string) :=
  omap (fun e => match e with
                 | SendAttempt address template _ => Some (address, template)
                 | _ => None
                 end) j.

(** How many attempts of one template a journal holds. *)
Definition attempts_of (template : string) (j : list Event) : nat :=
  length (List.filter (fun p => String.eqb (snd p) template) (send_attempts j)).

(** The creation timestamp as [instance-creation-timestamp] computes it. *)
Definition creation_timestamp (w : World) : option Temporal :=
  date_joined <$> select_one (fun _ => true) (User_table w).

(** The specification's Administrator: "the user record with superuser
    privilege, earliest date_joined".  It is the row whose [:email]
    [send-abandoment-email-if-needed!] selects; [send-follow-up-email!] asks
    for [:is_active true] as well. *)
Definition administrator (w : World) : option User :=
  select_one (fun u => is_superuser u) (User_table w).

(** The world right after one guarded send: the attempt is journalled, and
    so is the error line when the attempt threw. *)
Definition after_attempt (address template message : string) (w : World) : World :=
  match delivery w address template with
  | None => record_event (SendAttempt address template None) w
  | Some e =>
      record_event (LogError message e)
        (record_event (SendAttempt address template (Some e)) w)
  end.

(** ** Instance lifetime *)

(** One step of an instance's life: a trigger fires one of the two jobs, or
    anything outside the namespace happens (time passes, users join or are
    deactivated, mail settings change, the process restarts).  The two
    settings are private to the namespace and persisted, and the journal is
    only ever written by the jobs. *)
Inductive step : World -> World -> Prop :=
| step_FollowUpEmail w : step w (snd (FollowUpEmail w))
| step_AbandonmentEmail w : step w (snd (AbandonmentEmail w))
| step_elsewhere w w' :
    setting_follow_up_email_sent w' = setting_follow_up_email_sent w ->
    setting_abandonment_email_sent w' = setting_abandonment_email_sent w ->
    journal w' = journal w ->
    step w w'.

(** A new instance: both settings at their default, nothing sent yet. *)
Definition fresh (w : World) : Prop :=
  setting_follow_up_email_sent w = false /\
  setting_abandonment_email_sent w = false /\
  journal w = [].

(** What every reachable world satisfies: while a setting is false its
    template has not been attempted, and no template was attempted twice. *)
Definition one_shot (w : World) : Prop :=
  ((setting_follow_up_email_sent w = false -> attempts_of "follow-up" (journal w) = 0)
   /\ attempts_of "follow-up" (journal w) <= 1)%nat
  /\ ((setting_abandonment_email_sent w = false -> attempts_of "abandon" (journal w) = 0)
      /\ attempts_of "abandon" (journal w) <= 1)%nat.

(** ** Sample instances *)

Definition founder : User := mkUser "admin@example.com" 0 true true.
Definition deactivated_founder : User := mkUser "admin@example.com" 0 true false.
Definition analyst : User := mkUser "analyst@example.com" (weeks 1) false true.

(** An instance that has not run either job yet; every send it tries throws
    [failure] when that is given. *)
Definition instance (now : Temporal) (users : list User)
    (activity views : list Temporal) (configured tracking : bool)
    (failure : option Throwable) : World :=
  mkWorld now users activity views false false configured tracking
          (fun _ _ => failure) [].

End FollowUpEmails.

(* ===================================================================== *)
(** * Permission lookups of the admin permission editors *)
(* ===================================================================== *)

Module Permissions.

(** The JavaScript values a permissions graph is made of: nested plain
    objects with string leaves, and the two empty values.  Property keys are
    strings; a number used as a key is converted first. *)
Local Unset Elimination Schemes.
Inductive JsValue : Type :=
| JsUndefined
| JsNull
| JsString (s : string)
| JsObject (fields : gmap string JsValue).
Local Set Elimination Schemes.

(** [ToString] of an integer id used as a property key. *)
Definition ToString (n : Z) : string := pretty n.

(** [!v] *)
Definition falsy (v : JsValue) : bool :=
  match v with
  | JsUndefined | JsNull => true
  | JsString s => if decide (s = "") then true else false
  | JsObject _ => false
  end.

(** [curr[key]].  Only own properties of plain objects are read: the keys
    used below are ids, ["details"] and the application permission keys. *)
Definition get_property (curr : JsValue) (key : string) : JsValue :=
  match curr with
  | JsObject fields => default JsUndefined (fields !! key)
  | _ => JsUndefined
  end.

(** [getIn] of the icepick package, which the two readers import:
    [path.reduce((curr, key) => { if (!curr) { return } return curr[key] }, coll)]. *)
Definition getIn (coll : JsValue) (path : list string) : JsValue :=
  fold_left (fun curr key => if falsy curr then JsUndefined else get_property curr key)
            path coll.

(** [a ?? b] *)
Definition nullish_coalesce (a b : JsValue) : JsValue :=
  match a with
  | JsUndefined | JsNull => b
  | _ => a
  end.

(** [DETAILS_PERMISSION_OPTIONS.no.value] and [.yes.value] *)
Definition DETAILS_PERMISSION_OPTIONS_no_value : string := "no".
Definition DETAILS_PERMISSION_OPTIONS_yes_value : string := "yes".

Definition getDetailsPermission (permissions : JsValue) (groupId databaseId : Z) : JsValue :=
  nullish_coalesce
    (getIn permissions [ToString groupId; ToString databaseId; "details"])
    (JsString DETAILS_PERMISSION_OPTIONS_no_value).

(** [ApplicationPermissionKey], with the three keys the editor asks for. *)
Inductive ApplicationPermissionKey : Type := setting | monitoring | subscription.

Definition key_name (k : ApplicationPermissionKey) : string :=
  match k with
  | setting => "setting"
  | monitoring => "monitoring"
  | subscription => "subscription"
  end.

Definition getApplicationPermission (permissions : JsValue) (groupId : Z)
    (permissionKey : ApplicationPermissionKey) : JsValue :=
  nullish_coalesce
    (getIn permissions [ToString groupId; key_name permissionKey])
    (JsString "no").

(** The entry of a graph at a path: the value reached by following own
    properties of nested objects, if every key on the way is present. *)
Fixpoint entry_at (graph : JsValue) (path : list string) : option JsValue :=
  match path with
  | [] => Some graph
  | key :: rest =>
      match graph with
      | JsObject fields =>
          match fields !! key with
          | Some v => entry_at v rest
          | None => None
          end
      | _ => None
      end
  end.

End Permissions.

(* ===================================================================== *)
(** * The decision of a run, and what a run leaves alone *)
(* ===================================================================== *)

Module Runs.
Import FollowUpEmails.
Local Open Scope Z_scope.

(** The recipient a run of [FollowUpEmail] writes to, if it writes at all:
    the guards of the job and of [send-follow-up-email!], read in order. *)
Definition follow_up_due (w : World) : option User :=
  if setting_follow_up_email_sent w then None
  else match creation_timestamp w with
       | Some created =>
           if older_than (clock w) created (weeks 2)
              && smtp_configured w && setting_anon_tracking_enabled w
           then select_one (fun u => is_superuser u && is_active u) (User_table w)
           else None
       | None => None
       end.

(** The same for [AbandonmentEmail]. *)
Definition abandonment_due (w : World) : option User :=
  if setting_abandonment_email_sent w then None
  else if smtp_configured w && setting_anon_tracking_enabled w
       then match administrator w with
            | Some admin =>
                if should_send_abandoment_email_4 (clock w) (creation_timestamp w)
                     (sql_max (date_joined <$> User_table w))
                     (sql_max (Activity_table w))
                     (sql_max (ViewLog_table w))
                then Some admin
                else None
            | None => None
            end
       else None.

(** Two worlds with the same clock, tables, mail configuration and delivery
    behaviour: everything but the two settings and the journal. *)
Definition same_surroundings (w w' : World) : Prop :=
  clock w' = clock w
  /\ User_table w' = User_table w
  /\ Activity_table w' = Activity_table w
  /\ ViewLog_table w' = ViewLog_table w
  /\ smtp_configured w' = smtp_configured w
  /\ setting_anon_tracking_enabled w' = setting_anon_tracking_enabled w
  /\ delivery w' = delivery w.

End Runs.

(* ===================================================================== *)
(** * The application permission editor (selectors.ts) *)
(* ===================================================================== *)

Module ApplicationPermissionsEditor.
Import Permissions.

(** The fields of [Group] that the selectors read. *)
Record Group : Type := mkGroup {
  group_id : Z;
  group_name : string
}.

(** [v === "..."] against a string literal. *)
Definition strict_equals_string (v : JsValue) (literal : string) : bool :=
  match v with
  | JsString s => if decide (s = literal) then true else false
  | _ => false
  end.

(** One cell of the editor, as [getPermission] builds it; [null] is [None]. *)
Record PermissionCell (PermissionOption : Type) : Type := mkPermissionCell {
  permission : ApplicationPermissionKey;
  isDisabled : bool;
  warning : option string;
  disabledTooltip : option string;
  value : JsValue;
  options : list PermissionOption
}.
Arguments mkPermissionCell {PermissionOption}.
Arguments permission {PermissionOption}.
Arguments isDisabled {PermissionOption}.
Arguments warning {PermissionOption}.
Arguments disabledTooltip {PermissionOption}.
Arguments value {PermissionOption}.
Arguments options {PermissionOption}.

Record Entity (PermissionOption : Type) : Type := mkEntity {
  entity_id : Z;
  entity_name : string;
  permissions : list (PermissionCell PermissionOption)
}.
Arguments mkEntity {PermissionOption}.
Arguments entity_id {PermissionOption}.
Arguments entity_name {PermissionOption}.
Arguments permissions {PermissionOption}.

Record Column : Type := mkColumn {
  column_name : string;
  hint : option string
}.

Record Editor (PermissionOption : Type) : Type := mkEditor {
  filterPlaceholder : string;
  columns : list Column;
  entities : list (Entity PermissionOption)
}.
Arguments mkEditor {PermissionOption}.
Arguments filterPlaceholder {PermissionOption}.
Arguments columns {PermissionOption}.
Arguments entities {PermissionOption}.

Section Selectors.

(** Imported from modules outside the sources at hand. *)
Variable getDefaultGroupHasHigherAccessText : Group -> string.
Variable isAdminGroup : Group -> bool.
Variable UNABLE_TO_CHANGE_ADMIN_PERMISSIONS : string.
Variable PermissionOption : Type.
Variable APPLICATION_PERMISSIONS_OPTIONS_yes : PermissionOption.
Variable APPLICATION_PERMISSIONS_OPTIONS_no : PermissionOption.

Definition getPermissionWarning (value defaultGroupValue : JsValue)
    (defaultGroup : Group) (groupId : Z) : option string :=
  if strict_equals_string defaultGroupValue "yes" && strict_equals_string value "no"
  then Some (getDefaultGroupHasHigherAccessText defaultGroup)
  else None.

Definition getPermission (permissions : JsValue) (isAdmin : bool) (groupId : Z)
    (defaultGroup : Group) (permissionKey : ApplicationPermissionKey)
    : PermissionCell PermissionOption :=
  let value := getApplicationPermission permissions groupId permissionKey in
  let defaultGroupValue :=
    getApplicationPermission permissions (group_id defaultGroup) permissionKey in
  let warning := getPermissionWarning value defaultGroupValue defaultGroup groupId in
  mkPermissionCell
    permissionKey
    isAdmin
    warning
    (if isAdmin then Some UNABLE_TO_CHANGE_ADMIN_PERMISSIONS else None)
    (getApplicationPermission permissions groupId permissionKey)
    [APPLICATION_PERMISSIONS_OPTIONS_yes; APPLICATION_PERMISSIONS_OPTIONS_no].

(** The result function of the [getApplicationPermissionEditor] selector,
    applied to what its three input selectors returned; [groups == null] and
    a missing default group are [None]. *)
Definition getApplicationPermissionEditor (permissions : JsValue)
    (groups : option (list (list Group))) (defaultGroup : option Group)
    : option (Editor PermissionOption) :=
  match groups, defaultGroup with
  | Some groups, Some defaultGroup =>
      if falsy permissions then None
      else
        let entities :=
          List.map (fun group =>
            let isAdmin := isAdminGroup group in
            mkEntity (group_id group) (group_name group)
              [getPermission permissions isAdmin (group_id group) defaultGroup setting;
               getPermission permissions isAdmin (group_id group) defaultGroup monitoring;
               getPermission permissions isAdmin (group_id group) defaultGroup subscription])
            (List.concat groups) in
        Some (mkEditor
                "Search for a group"
                [mkColumn "Group name" None;
                 mkColumn "Settings access" None;
                 mkColumn "Monitoring access"
                   (Some "This grants access to Tools, Audit, and Troubleshooting");
                 mkColumn "Subscriptions and Alerts" None]
                entities)
  | _, _ => None
  end.

End Selectors.

End ApplicationPermissionsEditor.

(* ===================================================================== *)
(** * The details permission cell (details-permission.ts) *)
(* ===================================================================== *)

Module DetailsPermission.
Import Permissions.
Import ApplicationPermissionsEditor.

Record DetailsOption : Type := mkDetailsOption {
  option_label : string;
  option_value : string;
  option_icon : string;
  option_iconColor : string
}.

Definition DETAILS_PERMISSION_OPTIONS_no : DetailsOption :=
  mkDetailsOption "No" "no" "close" "danger".
Definition DETAILS_PERMISSION_OPTIONS_yes : DetailsOption :=
  mkDetailsOption "Yes" "yes" "check" "success".

Definition DETAILS_PERMISSION_REQUIRES_DATA_ACCESS : string :=
  "Manage database access requires full data access.".

Definition DETAILS_PERMISSIONS_DESC : list string :=
  [option_value DETAILS_PERMISSION_OPTIONS_yes;
   option_value DETAILS_PERMISSION_OPTIONS_no].

(** The field of [EntityId] that is read. *)
Record EntityId : Type := mkEntityId {
  databaseId : Z
}.

Record DetailsCell : Type := mkDetailsCell {
  cell_permission : string;
  cell_type : string;
  cell_value : JsValue;
  cell_isDisabled : bool;
  cell_isHighlighted : bool;
  cell_warning : option string;
  cell_disabledTooltip : string;
  cell_options : list DetailsOption
}.

Section Build.

(** Imported from modules outside the sources at hand: the six-argument
    [getPermissionWarning] of the data permission selectors, and the
    message. *)
Variable getPermissionWarning :
  JsValue -> JsValue -> string -> Group -> Z -> list string -> option string.
Variable UNABLE_TO_CHANGE_ADMIN_PERMISSIONS : string.

Definition buildDetailsPermission (entityId : EntityId) (groupId : Z) (isAdmin : bool)
    (permissions : JsValue) (defaultGroup : Group) (permissionSubject : string)
    : option DetailsCell :=
  if decide (permissionSubject <> "schemas") then None
  else
    let value := getDetailsPermission permissions groupId (databaseId entityId) in
    let defaultGroupValue :=
      getDetailsPermission permissions (group_id defaultGroup) (databaseId entityId) in
    let warning :=
      getPermissionWarning value defaultGroupValue permissionSubject defaultGroup
        groupId DETAILS_PERMISSIONS_DESC in
    Some (mkDetailsCell
            "details"
            "details"
            value
            isAdmin
            isAdmin
            warning
            (if isAdmin then UNABLE_TO_CHANGE_ADMIN_PERMISSIONS
             else DETAILS_PERMISSION_REQUIRES_DATA_ACCESS)
            [DETAILS_PERMISSION_OPTIONS_no; DETAILS_PERMISSION_OPTIONS_yes]).

End Build.

End DetailsPermission.

(* ===================================================================== *)
(** * The model cache job table (ModelCacheRefreshJobs.tsx) *)
(* ===================================================================== *)

Module ModelCacheRefreshJobs.

Local Open Scope Z_scope.

Definition PAGE_SIZE : Z := 20.

Record Query : Type := mkQuery {
  limit : Z;
  offset : Z
}.

(** The list query of the page the pagination hook is on. *)
Definition query (page : Z) : Query :=
  mkQuery PAGE_SIZE (PAGE_SIZE * page).

(** [metadata.total > PAGE_SIZE] *)
Definition hasPagination (total : Z) : bool := PAGE_SIZE <? total.

(** The rows a limit/offset query asks for, by 0-based position in the
    whole list. *)
Definition asks_for (q : Query) (position : Z) : Prop :=
  offset q <= position < offset q + limit q.

End ModelCacheRefreshJobs.

(* ===================================================================== *)
(** * Properties of the abandonment predicate *)
(* ===================================================================== *)

Import FollowUpEmails.
Local Open Scope Z_scope.

Lemma older_than_true now t d : older_than now t d = true <-> d <= now - t.
Proof. unfold older_than. apply Z.leb_le. Qed.

Lemma older_than_false now t d : older_than now t d = false <-> now - t < d.
Proof. unfold older_than. apply Z.leb_gt. Qed.

(** A usage signal passes when it is absent or at least [d] old. *)
Lemma signal_passes now d (signal : option Temporal) :
  match signal with None => true | Some t => older_than now t d end = true
  <-> signal = None \/ exists t, signal = Some t /\ d <= now - t.
Proof.
  destruct signal as [t|]; split.
  - intros H. right. exists t. split; [reflexivity | by apply older_than_true].
  - intros [H | (t' & H & Hage)]; [discriminate |].
    injection H as ->. by apply older_than_true.
  - by left.
  - reflexivity.
Qed.

(** The four-argument predicate, condition by condition. *)
Lemma abandonment_predicate_conditions
    (now : Temporal) (instance_creation last_user last_activity last_view : option Temporal) :
  should_send_abandoment_email_4 now instance_creation last_user last_activity last_view = true
  <->
  (exists created, instance_creation = Some created /\ weeks 4 <= now - created)
  /\ (last_user = None \/ exists t, last_user = Some t /\ weeks 2 <= now - t)
  /\ (last_activity = None \/ exists t, last_activity = Some t /\ weeks 2 <= now - t)
  /\ (last_view = None \/ exists t, last_view = Some t /\ weeks 2 <= now - t).
Proof.
  unfold should_send_abandoment_email_4.
  destruct instance_creation as [created|];
    [| split; [discriminate | intros ((c & Hc & _) & _); discriminate]].
  rewrite !andb_true_iff, !signal_passes, older_than_true. split.
  - intros [[[Hc Hu] Ha] Hv]. split; [by exists created | tauto].
  - intros ((c & [= ->] & Hage) & Hu & Ha & Hv). tauto.
Qed.

(** C2. For all four possibly absent timestamps, the four-argument
    [should-send-abandoment-email?] is true exactly when the creation
    timestamp is present and at least 4 weeks old, and each of last-user,
    last-activity and last-view is absent or at least 2 weeks old. *)
Theorem should_send_abandoment_email_4_iff
    (now : Temporal) (instance_creation last_user last_activity last_view : option Temporal) :
  should_send_abandoment_email_4 now instance_creation last_user last_activity last_view = true
  <->
  (exists created, instance_creation = Some created /\ weeks 4 <= now - created)
  /\ (last_user = None \/ exists t, last_user = Some t /\ weeks 2 <= now - t)
  /\ (last_activity = None \/ exists t, last_activity = Some t /\ weeks 2 <= now - t)
  /\ (last_view = None \/ exists t, last_view = Some t /\ weeks 2 <= now - t).
Proof.
  unfold should_send_abandoment_email_4.
  destruct instance_creation as [created|].
  - rewrite !andb_true_iff, !signal_passes, older_than_true.
    split.
    + intros [[[Hc Hu] Ha] Hv]. repeat split; try assumption. by exists created.
    + intros ((c & Hc & Hage) & Hu & Ha & Hv). injection Hc as ->. tauto.
  - split; [discriminate |]. intros ((c & Hc & _) & _). discriminate.
Qed.

(** Replacing one timestamp by a too recent one defeats the predicate,
    whatever the others are. *)
Lemma too_recent_creation now t lu la lv :
  now - t < weeks 4 -> should_send_abandoment_email_4 now (Some t) lu la lv = false.
Proof.
  intros H. apply older_than_false in H. unfold should_send_abandoment_email_4.
  by rewrite H.
Qed.

Lemma too_recent_signal now ic lu la lv t :
  now - t < weeks 2 ->
  should_send_abandoment_email_4 now ic (Some t) la lv = false
  /\ should_send_abandoment_email_4 now ic lu (Some t) lv = false
  /\ should_send_abandoment_email_4 now ic lu la (Some t) = false.
Proof.
  intros H. apply older_than_false in H. unfold should_send_abandoment_email_4.
  destruct ic as [c|]; [| done]. rewrite H.
  repeat split; rewrite ?andb_false_r; reflexivity.
Qed.

(** C8. At instance age 5 weeks with a user who joined 1 week ago the
    predicate is false whatever the other two signals are; with last-user and
    last-activity absent, last-view 3 weeks ago and instance age 5 weeks it
    is true; and from any satisfying assignment, making any single one of the
    four timestamps too recent (creation younger than 4 weeks, a signal
    younger than 2 weeks) makes it false. *)
Theorem abandonment_needs_all_four :
  (forall now created last_user last_activity last_view,
      now - created = weeks 5 -> now - last_user = weeks 1 ->
      should_send_abandoment_email_4 now (Some created) (Some last_user)
        last_activity last_view = false)
  /\ (forall now created last_view,
      now - created = weeks 5 -> now - last_view = weeks 3 ->
      should_send_abandoment_email_4 now (Some created) None None (Some last_view) = true)
  /\ (forall now ic lu la lv,
      should_send_abandoment_email_4 now ic lu la lv = true ->
      (forall t, now - t < weeks 4 ->
                 should_send_abandoment_email_4 now (Some t) lu la lv = false)
      /\ (forall t, now - t < weeks 2 ->
                 should_send_abandoment_email_4 now ic (Some t) la lv = false)
      /\ (forall t, now - t < weeks 2 ->
                 should_send_abandoment_email_4 now ic lu (Some t) lv = false)
      /\ (forall t, now - t < weeks 2 ->
                 should_send_abandoment_email_4 now ic lu la (Some t) = false)).
Proof.
  split; [| split].
  - intros now created last_user la lv Hc Hu.
    apply (too_recent_signal now (Some created) None la lv last_user).
    rewrite Hu. unfold weeks. lia.
  - intros now created last_view Hc Hv.
    apply abandonment_predicate_conditions. repeat split.
    + exists created. split; [reflexivity |]. rewrite Hc. unfold weeks. lia.
    + by left.
    + by left.
    + right. exists last_view. split; [reflexivity |]. rewrite Hv. unfold weeks. lia.
  - intros now ic lu la lv _. repeat split; intros t Ht.
    + by apply too_recent_creation.
    + by apply (too_recent_signal now ic lu la lv t).
    + by apply (too_recent_signal now ic lu la lv t).
    + by apply (too_recent_signal now ic lu la lv t).
Qed.

Lemma abandonment_needs_all_four_witness :
  should_send_abandoment_email_4 (weeks 5) (Some 0) (Some (weeks 4)) None (Some 0) = false
  /\ should_send_abandoment_email_4 (weeks 5) (Some 0) None None (Some (weeks 2)) = true
  /\ should_send_abandoment_email_4 (weeks 5) (Some (weeks 2)) None None (Some (weeks 2)) = false
  /\ should_send_abandoment_email_4 (weeks 5) (Some 0) None None (Some (weeks 4)) = false.
Proof.
  destruct abandonment_needs_all_four as (Hno & Hyes & Hflip).
  split; [| split; [| split]].
  - apply Hno; reflexivity.
  - apply Hyes; reflexivity.
  - apply (Hflip (weeks 5) (Some 0) None None (Some (weeks 2))); [| reflexivity].
    apply Hyes; reflexivity.
  - apply (Hflip (weeks 5) (Some 0) None None (Some (weeks 2))); [| reflexivity].
    apply Hyes; reflexivity.
Defined.

(* ===================================================================== *)
(** * Running the two jobs *)
(* ===================================================================== *)

(** ** Queries *)

Lemma first_by_date_joined_In rows u :
  first_by_date_joined rows = Some u -> In u rows.
Proof.
  revert u. induction rows as [|r rest IH]; intros u; simpl; [discriminate |].
  destruct (first_by_date_joined rest) as [v|].
  - destruct (date_joined v <? date_joined r); intros [= <-]; auto.
  - intros [= <-]. by left.
Qed.

Lemma first_by_date_joined_None rows :
  first_by_date_joined rows = None <-> rows = [].
Proof.
  destruct rows as [|r rest]; simpl; [done |].
  destruct (first_by_date_joined rest) as [v|];
    [destruct (date_joined v <? date_joined r) |]; done.
Qed.


Lemma select_one_Some where_ rows u :
  select_one where_ rows = Some u -> In u rows /\ where_ u = true.
Proof.
  unfold select_one. intros H. apply first_by_date_joined_In in H.
  by apply filter_In in H.
Qed.

Lemma select_one_None where_ rows :
  select_one where_ rows = None <-> forall u, In u rows -> where_ u = false.
Proof.
  unfold select_one. rewrite first_by_date_joined_None. split.
  - intros Hnil u Hu. destruct (where_ u) eqn:Hw; [| done].
    assert (In u (List.filter where_ rows)) as Hin by (apply filter_In; auto).
    rewrite Hnil in Hin. destruct Hin.
  - intros Hall. destruct (List.filter where_ rows) as [|u l] eqn:Hf; [done |].
    assert (In u (List.filter where_ rows)) as Hin by (rewrite Hf; by left).
    apply filter_In in Hin as [Hin Hw]. rewrite (Hall u Hin) in Hw. discriminate.
Qed.

Lemma select_one_exists where_ rows u :
  In u rows -> where_ u = true -> exists v, select_one where_ rows = Some v.
Proof.
  intros Hin Hw. destruct (select_one where_ rows) as [v|] eqn:Hs; [by exists v |].
  rewrite select_one_None in Hs. rewrite (Hs u Hin) in Hw. discriminate.
Qed.

Lemma sql_max_In column m : sql_max column = Some m -> In m column.
Proof.
  revert m. induction column as [|t rest IH]; intros m; simpl; [discriminate |].
  destruct (sql_max rest) as [m'|]; intros [= <-]; [| by left].
  destruct (Z.max_spec t m') as [[_ ->] | [_ ->]]; auto.
Qed.


(** ** The guarded send *)

(** The [try]/[catch]/[finally] block around a send always returns, and
    ends with the setting written. *)
Lemma guarded_send address template message (mark : bool -> World -> World) w :
  try_catch_finally
    (messages_send_follow_up_email address template)
    (fun e => log_error message e)
    (modify (mark true)) w
  = (Returned tt, mark true (after_attempt address template message w)).
Proof.
  unfold try_catch_finally, messages_send_follow_up_email, log_error, modify,
    after_attempt.
  destruct (delivery w address template); reflexivity.
Qed.

Lemma send_attempts_app j1 j2 :
  send_attempts (j1 ++ j2) = send_attempts j1 ++ send_attempts j2.
Proof. unfold send_attempts. apply omap_app. Qed.

Lemma after_attempt_sends address template message w :
  send_attempts (journal (after_attempt address template message w))
  = send_attempts (journal w) ++ [(address, template)].
Proof.
  unfold after_attempt.
  destruct (delivery w address template); simpl;
    rewrite !send_attempts_app; simpl; by rewrite ?app_nil_r.
Qed.

(** ** What one run does *)

Lemma instance_creation_timestamp_run w :
  instance_creation_timestamp w = (Returned (creation_timestamp w), w).
Proof. reflexivity. Qed.

Lemma send_follow_up_email_run w :
  send_follow_up_email w =
  (Returned tt,
   if smtp_configured w && setting_anon_tracking_enabled w
      && negb (setting_follow_up_email_sent w)
   then match select_one (fun u => is_superuser u && is_active u) (User_table w) with
        | Some admin =>
            with_follow_up_email_sent true
              (after_attempt (email admin) "follow-up"
                 "Problem sending follow-up email:" w)
        | None => w
        end
   else w).
Proof.
  unfold send_follow_up_email, bind, email_configured, anon_tracking_enabled,
    follow_up_email_sent, select_one_User, gets, when_, when_let, ret.
  destruct (smtp_configured w && setting_anon_tracking_enabled w
            && negb (setting_follow_up_email_sent w)); [| reflexivity].
  destruct (select_one _ (User_table w)) as [admin|]; [| reflexivity].
  unfold follow_up_email_sent_set. apply guarded_send.
Qed.

Lemma FollowUpEmail_run w :
  FollowUpEmail w =
  (Returned tt,
   if setting_follow_up_email_sent w then w
   else match creation_timestamp w with
        | Some created =>
            if older_than (clock w) created (weeks 2)
            then snd (send_follow_up_email w)
            else w
        | None => w
        end).
Proof.
  unfold FollowUpEmail, bind, follow_up_email_sent, gets, when_, when_let, ret.
  destruct (setting_follow_up_email_sent w); cbn [negb]; [reflexivity |].
  rewrite instance_creation_timestamp_run.
  destruct (creation_timestamp w) as [created|]; [| reflexivity].
  unfold offset_date_time, gets.
  destruct (older_than (clock w) created (weeks 2)); [| reflexivity].
  rewrite send_follow_up_email_run. reflexivity.
Qed.

Lemma should_send_abandoment_email_run w :
  should_send_abandoment_email w =
  (Returned (should_send_abandoment_email_4 (clock w) (creation_timestamp w)
               (sql_max (date_joined <$> User_table w))
               (sql_max (Activity_table w))
               (sql_max (ViewLog_table w))), w).
Proof. reflexivity. Qed.

Lemma send_abandoment_email_if_needed_run w :
  send_abandoment_email_if_needed w =
  (Returned tt,
   match administrator w with
   | Some admin =>
       if should_send_abandoment_email_4 (clock w) (creation_timestamp w)
            (sql_max (date_joined <$> User_table w))
            (sql_max (Activity_table w))
            (sql_max (ViewLog_table w))
       then with_abandonment_email_sent true
              (after_attempt (email admin) "abandon"
                 "Problem sending abandonment email"
                 (record_event (LogInfo "Sending abandonment email!") w))
       else w
   | None => w
   end).
Proof.
  unfold send_abandoment_email_if_needed, bind, select_one_User, gets, when_let,
    administrator.
  destruct (select_one _ (User_table w)) as [admin|]; [| reflexivity].
  cbn [fmap option_fmap option_map]. rewrite should_send_abandoment_email_run.
  destruct (should_send_abandoment_email_4 _ _ _ _ _); [| reflexivity].
  unfold when_, log_info, modify, abandonment_email_sent_set.
  apply guarded_send.
Qed.

Lemma AbandonmentEmail_run w :
  AbandonmentEmail w =
  (Returned tt,
   if setting_abandonment_email_sent w then w
   else if smtp_configured w && setting_anon_tracking_enabled w
        then snd (send_abandoment_email_if_needed w)
        else w).
Proof.
  unfold AbandonmentEmail, bind, abandonment_email_sent, email_configured,
    anon_tracking_enabled, gets, when_, ret.
  destruct (setting_abandonment_email_sent w); cbn [negb]; [reflexivity |].
  destruct (smtp_configured w && setting_anon_tracking_enabled w); [| reflexivity].
  rewrite send_abandoment_email_if_needed_run. reflexivity.
Qed.

(** ** Effects of a run on the settings and on the journal *)

Lemma attempts_of_snoc template j j' address template' :
  send_attempts j' = send_attempts j ++ [(address, template')] ->
  attempts_of template j'
  = (attempts_of template j + if String.eqb template' template then 1 else 0)%nat.
Proof.
  intros H. unfold attempts_of. rewrite H, List.filter_app, length_app. simpl.
  destruct (String.eqb template' template); reflexivity.
Qed.

(** A run of the follow-up job either changes nothing, or starts with the
    follow-up setting false, makes one attempt at the "follow-up" template to
    an active superuser, and ends with the setting true. *)
Lemma FollowUpEmail_effect w :
  snd (FollowUpEmail w) = w
  \/ (setting_follow_up_email_sent w = false
      /\ setting_follow_up_email_sent (snd (FollowUpEmail w)) = true
      /\ setting_abandonment_email_sent (snd (FollowUpEmail w))
         = setting_abandonment_email_sent w
      /\ exists admin,
           select_one (fun u => is_superuser u && is_active u) (User_table w) = Some admin
           /\ send_attempts (journal (snd (FollowUpEmail w)))
              = send_attempts (journal w) ++ [(email admin, "follow-up")]).
Proof.
  rewrite FollowUpEmail_run. cbn [snd].
  destruct (setting_follow_up_email_sent w) eqn:Hsent; [by left |].
  destruct (creation_timestamp w) as [created|]; [| by left].
  destruct (older_than (clock w) created (weeks 2)); [| by left].
  rewrite send_follow_up_email_run. cbn [snd].
  destruct (smtp_configured w && setting_anon_tracking_enabled w
            && negb (setting_follow_up_email_sent w)); [| by left].
  destruct (select_one _ (User_table w)) as [admin|] eqn:Hadmin; [| by left].
  right. repeat split.
  - unfold after_attempt. by destruct (delivery w _ _).
  - exists admin. split; [reflexivity |].
    cbn [journal with_follow_up_email_sent]. apply after_attempt_sends.
Qed.

(** The same for the abandonment job, whose recipient is any superuser. *)
Lemma AbandonmentEmail_effect w :
  snd (AbandonmentEmail w) = w
  \/ (setting_abandonment_email_sent w = false
      /\ setting_abandonment_email_sent (snd (AbandonmentEmail w)) = true
      /\ setting_follow_up_email_sent (snd (AbandonmentEmail w))
         = setting_follow_up_email_sent w
      /\ exists admin,
           administrator w = Some admin
           /\ send_attempts (journal (snd (AbandonmentEmail w)))
              = send_attempts (journal w) ++ [(email admin, "abandon")]).
Proof.
  rewrite AbandonmentEmail_run. cbn [snd].
  destruct (setting_abandonment_email_sent w) eqn:Hsent; [by left |].
  destruct (smtp_configured w && setting_anon_tracking_enabled w); [| by left].
  rewrite send_abandoment_email_if_needed_run. cbn [snd].
  destruct (administrator w) as [admin|] eqn:Hadmin; [| by left].
  destruct (should_send_abandoment_email_4 _ _ _ _ _); [| by left].
  right. repeat split.
  - unfold after_attempt. by destruct (delivery _ _ _).
  - exists admin. split; [reflexivity |].
    cbn [journal with_abandonment_email_sent]. rewrite after_attempt_sends.
    cbn [journal record_event]. rewrite send_attempts_app. simpl.
    by rewrite app_nil_r.
Qed.

(** ** The sent-flags are one-way *)

(** None of the four functions of the namespace turns a setting that is
    true back to false. *)
Lemma settings_never_reset (op : M unit) w :
  In op [FollowUpEmail; AbandonmentEmail;
         send_follow_up_email; send_abandoment_email_if_needed] ->
  (setting_follow_up_email_sent w = true ->
   setting_follow_up_email_sent (snd (op w)) = true)
  /\ (setting_abandonment_email_sent w = true ->
      setting_abandonment_email_sent (snd (op w)) = true).
Proof.
  intros [<- | [<- | [<- | [<- | []]]]].
  - destruct (FollowUpEmail_effect w) as [-> | (_ & Ht & Hother & _)]; [done |].
    rewrite Ht, Hother. done.
  - destruct (AbandonmentEmail_effect w) as [-> | (_ & Ht & Hother & _)]; [done |].
    rewrite Ht, Hother. done.
  - rewrite send_follow_up_email_run. cbn [snd].
    destruct (smtp_configured w && setting_anon_tracking_enabled w
              && negb (setting_follow_up_email_sent w)); [| done].
    destruct (select_one _ (User_table w)); [| done].
    unfold after_attempt. by destruct (delivery w _ _).
  - rewrite send_abandoment_email_if_needed_run. cbn [snd].
    destruct (administrator w); [| done].
    destruct (should_send_abandoment_email_4 _ _ _ _ _); [| done].
    unfold after_attempt. by destruct (delivery _ _ _).
Qed.

Lemma one_shot_fresh w : fresh w -> one_shot w.
Proof.
  intros (_ & _ & Hj). unfold one_shot, attempts_of. rewrite Hj. simpl.
  repeat split; intros; lia.
Qed.

Lemma one_shot_step w w' : step w w' -> one_shot w -> one_shot w'.
Proof.
  intros Hstep ((Hf0 & Hf1) & (Ha0 & Ha1)). destruct Hstep as [w | w | w w' Hf Ha Hj].
  - destruct (FollowUpEmail_effect w) as [-> | (Hsent & Ht & Hother & admin & _ & Hj)];
      [done |].
    unfold one_shot. rewrite Ht, Hother.
    rewrite (attempts_of_snoc "follow-up" _ _ _ _ Hj).
    rewrite (attempts_of_snoc "abandon" _ _ _ _ Hj).
    rewrite (Hf0 Hsent). simpl. repeat split; try lia; try done.
    intros H. rewrite Ha0 by done. lia.
  - destruct (AbandonmentEmail_effect w) as [-> | (Hsent & Ht & Hother & admin & _ & Hj)];
      [done |].
    unfold one_shot. rewrite Ht, Hother.
    rewrite (attempts_of_snoc "follow-up" _ _ _ _ Hj).
    rewrite (attempts_of_snoc "abandon" _ _ _ _ Hj).
    rewrite (Ha0 Hsent). simpl. repeat split; try lia; try done.
    intros H. rewrite Hf0 by done. lia.
  - unfold one_shot. rewrite Hf, Ha, Hj. done.
Qed.

Lemma one_shot_reachable w0 w : rtc step w0 w -> one_shot w0 -> one_shot w.
Proof. induction 1; eauto using one_shot_step. Qed.

(** Once a setting is true it stays true along every later step, and the
    number of attempts of its template no longer changes. *)
Lemma sent_is_terminal w w' :
  rtc step w w' ->
  (setting_follow_up_email_sent w = true ->
   setting_follow_up_email_sent w' = true
   /\ attempts_of "follow-up" (journal w') = attempts_of "follow-up" (journal w))
  /\ (setting_abandonment_email_sent w = true ->
      setting_abandonment_email_sent w' = true
      /\ attempts_of "abandon" (journal w') = attempts_of "abandon" (journal w)).
Proof.
  induction 1 as [w | w w1 w' Hstep _ [IHf IHa]]; [done |].
  assert ((setting_follow_up_email_sent w = true ->
           setting_follow_up_email_sent w1 = true
           /\ attempts_of "follow-up" (journal w1) = attempts_of "follow-up" (journal w))
          /\ (setting_abandonment_email_sent w = true ->
              setting_abandonment_email_sent w1 = true
              /\ attempts_of "abandon" (journal w1) = attempts_of "abandon" (journal w)))
    as [Hf Ha].
  { destruct Hstep as [w | w | w w1 Hf Ha Hj].
    - destruct (FollowUpEmail_effect w) as [-> | (Hsent & Ht & Hother & admin & _ & Hj)];
        [done |].
      split; [congruence |]. intros Hs. rewrite Hother.
      by rewrite (attempts_of_snoc "abandon" _ _ _ _ Hj), Nat.add_0_r.
    - destruct (AbandonmentEmail_effect w) as [-> | (Hsent & Ht & Hother & admin & _ & Hj)];
        [done |].
      split; [| congruence]. intros Hs. rewrite Hother.
      by rewrite (attempts_of_snoc "follow-up" _ _ _ _ Hj), Nat.add_0_r.
    - rewrite Hf, Ha, Hj. done. }
  split; intros Hs.
  - destruct (Hf Hs) as [Hs1 Hn1]. destruct (IHf Hs1) as [Hs2 Hn2].
    split; [done | congruence].
  - destruct (Ha Hs) as [Hs1 Hn1]. destruct (IHa Hs1) as [Hs2 Hn2].
    split; [done | congruence].
Qed.

(** C1. For both jobs: with the job's sent-flag true a run changes nothing
    (no send attempt, nothing journalled); no function of the namespace sets
    a sent-flag back to false, so the flag stays true and the attempt count
    stays put along every later history; hence from a fresh instance each of
    the two templates is attempted at most once, whatever else happens in
    between. *)
Theorem each_notification_at_most_once :
  (forall w, setting_follow_up_email_sent w = true ->
             FollowUpEmail w = (Returned tt, w))
  /\ (forall w, setting_abandonment_email_sent w = true ->
                AbandonmentEmail w = (Returned tt, w))
  /\ (forall (op : M unit) w,
        In op [FollowUpEmail; AbandonmentEmail;
               send_follow_up_email; send_abandoment_email_if_needed] ->
        (setting_follow_up_email_sent w = true ->
         setting_follow_up_email_sent (snd (op w)) = true)
        /\ (setting_abandonment_email_sent w = true ->
            setting_abandonment_email_sent (snd (op w)) = true))
  /\ (forall w w', rtc step w w' ->
        (setting_follow_up_email_sent w = true ->
         setting_follow_up_email_sent w' = true
         /\ attempts_of "follow-up" (journal w') = attempts_of "follow-up" (journal w))
        /\ (setting_abandonment_email_sent w = true ->
            setting_abandonment_email_sent w' = true
            /\ attempts_of "abandon" (journal w') = attempts_of "abandon" (journal w)))
  /\ (forall w0 w, fresh w0 -> rtc step w0 w ->
        (attempts_of "follow-up" (journal w) <= 1)%nat
        /\ (attempts_of "abandon" (journal w) <= 1)%nat).
Proof.
  split; [| split; [| split; [| split]]].
  - intros w Hs. rewrite FollowUpEmail_run, Hs. reflexivity.
  - intros w Hs. rewrite AbandonmentEmail_run, Hs. reflexivity.
  - intros op w. apply settings_never_reset.
  - apply sent_is_terminal.
  - intros w0 w Hfresh Hreach.
    destruct (one_shot_reachable w0 w Hreach (one_shot_fresh w0 Hfresh))
      as ((_ & Hf) & (_ & Ha)).
    done.
Qed.

Lemma each_notification_at_most_once_witness :
  let sent := with_follow_up_email_sent true
                (instance (weeks 5) [founder] [] [] true true None) in
  let idle := instance (weeks 5) [founder] [] [] true true None in
  FollowUpEmail sent = (Returned tt, sent)
  /\ (attempts_of "follow-up"
        (journal (snd (FollowUpEmail (snd (FollowUpEmail idle))))) <= 1)%nat.
Proof.
  destruct each_notification_at_most_once as (Hblock & _ & _ & _ & Honce).
  split.
  - apply Hblock. reflexivity.
  - apply (Honce (instance (weeks 5) [founder] [] [] true true None)).
    + repeat split.
    + eapply rtc_l; [apply step_FollowUpEmail |].
      eapply rtc_l; [apply step_FollowUpEmail |].
      apply rtc_refl.
Defined.

(* ===================================================================== *)
(** * The follow-up job *)
(* ===================================================================== *)

(** A run of the follow-up job in full: nothing, or the guarded send to the
    earliest active superuser. *)
Lemma FollowUpEmail_outcome w :
  FollowUpEmail w = (Returned tt, w)
  \/ exists created admin,
      setting_follow_up_email_sent w = false
      /\ creation_timestamp w = Some created
      /\ weeks 2 <= clock w - created
      /\ smtp_configured w = true
      /\ setting_anon_tracking_enabled w = true
      /\ select_one (fun u => is_superuser u && is_active u) (User_table w) = Some admin
      /\ FollowUpEmail w
         = (Returned tt,
            with_follow_up_email_sent true
              (after_attempt (email admin) "follow-up"
                 "Problem sending follow-up email:" w)).
Proof.
  rewrite FollowUpEmail_run.
  destruct (setting_follow_up_email_sent w) eqn:Hsent; [by left |].
  destruct (creation_timestamp w) as [created|]; [| by left].
  destruct (older_than (clock w) created (weeks 2)) eqn:Hage; [| by left].
  rewrite send_follow_up_email_run. cbn [snd]. rewrite Hsent.
  destruct (smtp_configured w) eqn:Hc; [| by left].
  destruct (setting_anon_tracking_enabled w) eqn:Ht; [| by left].
  cbn [andb negb].
  destruct (select_one _ (User_table w)) as [admin|] eqn:Hadmin; [| by left].
  right. exists created, admin. apply older_than_true in Hage. done.
Qed.

Lemma FollowUpEmail_attempts w created admin :
  setting_follow_up_email_sent w = false ->
  creation_timestamp w = Some created ->
  weeks 2 <= clock w - created ->
  smtp_configured w = true ->
  setting_anon_tracking_enabled w = true ->
  select_one (fun u => is_superuser u && is_active u) (User_table w) = Some admin ->
  FollowUpEmail w
  = (Returned tt,
     with_follow_up_email_sent true
       (after_attempt (email admin) "follow-up" "Problem sending follow-up email:" w)).
Proof.
  intros Hsent Hcreated Hage Hc Ht Hadmin. apply older_than_true in Hage.
  rewrite FollowUpEmail_run, Hsent, Hcreated, Hage, send_follow_up_email_run.
  cbn [snd]. rewrite Hsent, Hc, Ht. cbn [andb negb]. by rewrite Hadmin.
Qed.

Lemma FollowUpEmail_too_young w created :
  creation_timestamp w = Some created ->
  clock w - created < weeks 2 ->
  FollowUpEmail w = (Returned tt, w).
Proof.
  intros Hcreated Hage. apply older_than_false in Hage.
  rewrite FollowUpEmail_run, Hcreated, Hage.
  by destruct (setting_follow_up_email_sent w).
Qed.

(** C3, as the specification states it, with its Administrator ("the user
    record with superuser privilege, earliest date_joined"): sent-flag false,
    instance at least 2 weeks old, email configured, tracking enabled and an
    administrator existing do not yet make the follow-up job send.  The job
    looks its recipient up among the superusers that are also active. *)
Lemma follow_up_needs_active_administrator :
  ~ (forall w created admin,
        setting_follow_up_email_sent w = false ->
        creation_timestamp w = Some created ->
        weeks 2 <= clock w - created ->
        smtp_configured w = true ->
        setting_anon_tracking_enabled w = true ->
        administrator w = Some admin ->
        length (send_attempts (journal (snd (FollowUpEmail w))))
        = S (length (send_attempts (journal w)))
        /\ setting_follow_up_email_sent (snd (FollowUpEmail w)) = true).
Proof.
  intros claim.
  destruct (claim (instance (weeks 3) [deactivated_founder] [] [] true true None)
                  0 deactivated_founder) as [Hsends _];
    try reflexivity; [done | discriminate Hsends].
Qed.

(** C3 (amended). Below an instance age of 2 weeks a run of the follow-up
    job does nothing.  From a state with the sent-flag false, instance age at
    least 2 weeks, email configured, tracking enabled and an active superuser
    among the users, a run returns normally, makes exactly one send attempt
    (of the "follow-up" template, to an active superuser), leaves the flag
    true, and a second run right afterwards changes nothing. *)
Theorem follow_up_sends_once_after_two_weeks :
  (forall w created,
      creation_timestamp w = Some created ->
      clock w - created < weeks 2 ->
      FollowUpEmail w = (Returned tt, w))
  /\ (forall w created u,
      setting_follow_up_email_sent w = false ->
      creation_timestamp w = Some created ->
      weeks 2 <= clock w - created ->
      smtp_configured w = true ->
      setting_anon_tracking_enabled w = true ->
      In u (User_table w) -> is_superuser u = true -> is_active u = true ->
      exists admin,
        In admin (User_table w) /\ is_superuser admin = true /\ is_active admin = true
        /\ fst (FollowUpEmail w) = Returned tt
        /\ send_attempts (journal (snd (FollowUpEmail w)))
           = send_attempts (journal w) ++ [(email admin, "follow-up")]
        /\ setting_follow_up_email_sent (snd (FollowUpEmail w)) = true
        /\ FollowUpEmail (snd (FollowUpEmail w))
           = (Returned tt, snd (FollowUpEmail w))).
Proof.
  split; [apply FollowUpEmail_too_young |].
  intros w created u Hsent Hcreated Hage Hc Ht Hin Hsuper Hactive.
  destruct (select_one_exists (fun u => is_superuser u && is_active u)
              (User_table w) u Hin) as [admin Hadmin];
    [by rewrite Hsuper, Hactive |].
  exists admin.
  destruct (select_one_Some _ _ _ Hadmin) as [Hmember Hwhere].
  apply andb_true_iff in Hwhere as [Hs Ha].
  rewrite (FollowUpEmail_attempts w created admin) by assumption.
  cbn [fst snd].
  split; [assumption |]. split; [assumption |]. split; [assumption |].
  split; [reflexivity |]. split; [| split].
  - cbn [journal with_follow_up_email_sent]. apply after_attempt_sends.
  - reflexivity.
  - rewrite FollowUpEmail_run. reflexivity.
Qed.

Lemma follow_up_sends_once_after_two_weeks_witness :
  FollowUpEmail (instance (weeks 2 - 1) [founder] [] [] true true None)
  = (Returned tt, instance (weeks 2 - 1) [founder] [] [] true true None)
  /\ exists admin,
      In admin [founder] /\ is_superuser admin = true /\ is_active admin = true
      /\ fst (FollowUpEmail (instance (weeks 2) [founder] [] [] true true None))
         = Returned tt
      /\ send_attempts
           (journal (snd (FollowUpEmail (instance (weeks 2) [founder] [] [] true true None))))
         = [] ++ [(email admin, "follow-up")]
      /\ setting_follow_up_email_sent
           (snd (FollowUpEmail (instance (weeks 2) [founder] [] [] true true None))) = true
      /\ FollowUpEmail (snd (FollowUpEmail (instance (weeks 2) [founder] [] [] true true None)))
         = (Returned tt,
            snd (FollowUpEmail (instance (weeks 2) [founder] [] [] true true None))).
Proof.
  split.
  - apply (proj1 follow_up_sends_once_after_two_weeks _ 0); [reflexivity | done].
  - apply (proj2 follow_up_sends_once_after_two_weeks
             (instance (weeks 2) [founder] [] [] true true None) 0 founder);
      try reflexivity; by left.
Defined.

(** C7. When the age gate of the follow-up job passes (sent-flag false,
    creation timestamp present, instance at least 2 weeks old) but email is
    not configured, or tracking is disabled, or no user is an active
    superuser (in particular when there is no administrator at all), the run
    returns with the state unchanged: no send attempt, sent-flag still
    false. *)
Theorem follow_up_silent_when_not_ready w created :
  setting_follow_up_email_sent w = false ->
  creation_timestamp w = Some created ->
  weeks 2 <= clock w - created ->
  smtp_configured w = false
  \/ setting_anon_tracking_enabled w = false
  \/ (forall u, In u (User_table w) -> is_superuser u = false \/ is_active u = false) ->
  FollowUpEmail w = (Returned tt, w)
  /\ send_attempts (journal (snd (FollowUpEmail w))) = send_attempts (journal w)
  /\ setting_follow_up_email_sent (snd (FollowUpEmail w)) = false.
Proof.
  intros Hsent Hcreated Hage Hwhy.
  assert (FollowUpEmail w = (Returned tt, w)) as Hrun.
  { destruct (FollowUpEmail_outcome w)
      as [Hnoop | (c & admin & _ & _ & _ & Hc & Ht & Hadmin & _)]; [done |].
    destruct Hwhy as [Hno | [Hno | Hno]]; [congruence | congruence |].
    destruct (select_one_Some _ _ _ Hadmin) as [Hin Hwhere].
    apply andb_true_iff in Hwhere as [Hs Ha].
    destruct (Hno admin Hin); congruence. }
  rewrite Hrun. done.
Qed.

Lemma follow_up_silent_when_not_ready_witness :
  let w := instance (weeks 3) [founder] [] [] false true None in
  FollowUpEmail w = (Returned tt, w)
  /\ send_attempts (journal (snd (FollowUpEmail w))) = send_attempts (journal w)
  /\ setting_follow_up_email_sent (snd (FollowUpEmail w)) = false.
Proof.
  apply (follow_up_silent_when_not_ready
           (instance (weeks 3) [founder] [] [] false true None) 0);
    [reflexivity | reflexivity | done | by left].
Defined.

(* ===================================================================== *)
(** * The abandonment job *)
(* ===================================================================== *)

(** A run of the abandonment job in full: nothing, or the info line and the
    guarded send to the earliest superuser. *)
Lemma AbandonmentEmail_outcome w :
  AbandonmentEmail w = (Returned tt, w)
  \/ exists admin,
      setting_abandonment_email_sent w = false
      /\ smtp_configured w = true
      /\ setting_anon_tracking_enabled w = true
      /\ administrator w = Some admin
      /\ fst (should_send_abandoment_email w) = Returned true
      /\ AbandonmentEmail w
         = (Returned tt,
            with_abandonment_email_sent true
              (after_attempt (email admin) "abandon"
                 "Problem sending abandonment email"
                 (record_event (LogInfo "Sending abandonment email!") w))).
Proof.
  rewrite AbandonmentEmail_run.
  destruct (setting_abandonment_email_sent w) eqn:Hsent; [by left |].
  destruct (smtp_configured w) eqn:Hc; [| by left].
  destruct (setting_anon_tracking_enabled w) eqn:Ht; [| by left].
  cbn [andb]. rewrite send_abandoment_email_if_needed_run. cbn [snd].
  destruct (administrator w) as [admin|] eqn:Hadmin; [| by left].
  rewrite should_send_abandoment_email_run. cbn [fst].
  destruct (should_send_abandoment_email_4 _ _ _ _ _) eqn:Hshould; [| by left].
  right. exists admin. done.
Qed.

Lemma AbandonmentEmail_attempts w admin :
  setting_abandonment_email_sent w = false ->
  smtp_configured w = true ->
  setting_anon_tracking_enabled w = true ->
  administrator w = Some admin ->
  fst (should_send_abandoment_email w) = Returned true ->
  AbandonmentEmail w
  = (Returned tt,
     with_abandonment_email_sent true
       (after_attempt (email admin) "abandon" "Problem sending abandonment email"
          (record_event (LogInfo "Sending abandonment email!") w))).
Proof.
  intros Hsent Hc Ht Hadmin Hshould.
  rewrite should_send_abandoment_email_run in Hshould. cbn [fst] in Hshould.
  injection Hshould as Hshould.
  rewrite AbandonmentEmail_run, Hsent, Hc, Ht. cbn [andb].
  rewrite send_abandoment_email_if_needed_run, Hadmin, Hshould. reflexivity.
Qed.

Lemma abandonment_attempt_sends address w :
  send_attempts
    (journal (with_abandonment_email_sent true
                (after_attempt address "abandon" "Problem sending abandonment email"
                   (record_event (LogInfo "Sending abandonment email!") w))))
  = send_attempts (journal w) ++ [(address, "abandon")].
Proof.
  cbn [journal with_abandonment_email_sent]. rewrite after_attempt_sends.
  cbn [journal record_event]. rewrite send_attempts_app. simpl.
  by rewrite app_nil_r.
Qed.

(** C6. A run of the abandonment job makes a send attempt only when its
    sent-flag is false, email is configured and tracking is enabled; when in
    addition the should-send predicate holds and the administrator lookup
    gives an address, the run returns normally after exactly one attempt of
    the "abandon" template to that address, with the sent-flag true whether
    or not the delivery threw. *)
Theorem abandonment_job_gates :
  (forall w,
      send_attempts (journal (snd (AbandonmentEmail w))) <> send_attempts (journal w) ->
      setting_abandonment_email_sent w = false
      /\ smtp_configured w = true
      /\ setting_anon_tracking_enabled w = true)
  /\ (forall w address,
      setting_abandonment_email_sent w = false ->
      smtp_configured w = true ->
      setting_anon_tracking_enabled w = true ->
      fst (should_send_abandoment_email w) = Returned true ->
      email <$> administrator w = Some address ->
      fst (AbandonmentEmail w) = Returned tt
      /\ send_attempts (journal (snd (AbandonmentEmail w)))
         = send_attempts (journal w) ++ [(address, "abandon")]
      /\ setting_abandonment_email_sent (snd (AbandonmentEmail w)) = true).
Proof.
  split.
  - intros w Hsends.
    destruct (AbandonmentEmail_outcome w)
      as [Hnoop | (admin & Hsent & Hc & Ht & _)]; [| done].
    rewrite Hnoop in Hsends. done.
  - intros w address Hsent Hc Ht Hshould Haddress.
    destruct (administrator w) as [admin|] eqn:Hadmin; [| discriminate].
    injection Haddress as <-.
    rewrite (AbandonmentEmail_attempts w admin) by assumption. cbn [fst snd].
    split; [reflexivity |]. split; [apply abandonment_attempt_sends |].
    unfold after_attempt. by destruct (delivery _ _ _).
Qed.

Lemma abandonment_job_gates_witness :
  let w := instance (weeks 5) [founder] [] [] true true (Some "SMTP timeout") in
  fst (AbandonmentEmail w) = Returned tt
  /\ send_attempts (journal (snd (AbandonmentEmail w)))
     = send_attempts (journal w) ++ [("admin@example.com", "abandon")]
  /\ setting_abandonment_email_sent (snd (AbandonmentEmail w)) = true.
Proof.
  apply (proj2 abandonment_job_gates
           (instance (weeks 5) [founder] [] [] true true (Some "SMTP timeout")));
    reflexivity.
Defined.

(** C5, as the specification states it: no user records, no activity-log
    and no view-log entries, instance old enough, flag false, email
    configured, tracking enabled.  The state holds no creation timestamp
    then, so the age is a figure from outside the state; whatever it is, the
    run sends nothing. *)
Lemma abandonment_without_users_sends_nothing :
  ~ (forall w (age : Duration),
        User_table w = [] -> Activity_table w = [] -> ViewLog_table w = [] ->
        weeks 4 <= age ->
        setting_abandonment_email_sent w = false ->
        smtp_configured w = true ->
        setting_anon_tracking_enabled w = true ->
        exists address,
          In (address, "abandon") (send_attempts (journal (snd (AbandonmentEmail w))))).
Proof.
  intros claim.
  destruct (claim (instance (weeks 100) [] [] [] true true None) (weeks 100))
    as [address Hsent]; try reflexivity; [done | destruct Hsent].
Qed.

(** C5 (amended). The four-argument predicate is true when the three usage
    signals are absent and the creation timestamp is at least 4 weeks old.  A
    run of the job cannot meet that case: without user records it does
    nothing.  With no activity-log and no view-log entries, flag false, email
    configured, tracking enabled, a superuser among the users, the earliest
    user joined at least 4 weeks ago and every user at least 2 weeks ago, a
    run makes exactly one attempt of the "abandon" template and sets the
    flag. *)
Theorem abandonment_with_absent_signals :
  (forall now created,
      weeks 4 <= now - created ->
      should_send_abandoment_email_4 now (Some created) None None None = true)
  /\ (forall w, User_table w = [] -> AbandonmentEmail w = (Returned tt, w))
  /\ (forall w created u,
      Activity_table w = [] -> ViewLog_table w = [] ->
      setting_abandonment_email_sent w = false ->
      smtp_configured w = true ->
      setting_anon_tracking_enabled w = true ->
      creation_timestamp w = Some created ->
      weeks 4 <= clock w - created ->
      (forall v, In v (User_table w) -> weeks 2 <= clock w - date_joined v) ->
      In u (User_table w) -> is_superuser u = true ->
      exists admin,
        administrator w = Some admin
        /\ send_attempts (journal (snd (AbandonmentEmail w)))
           = send_attempts (journal w) ++ [(email admin, "abandon")]
        /\ setting_abandonment_email_sent (snd (AbandonmentEmail w)) = true).
Proof.
  split; [| split].
  - intros now created Hage. apply abandonment_predicate_conditions.
    repeat split; [by exists created | by left ..].
  - intros w Hnone.
    destruct (AbandonmentEmail_outcome w) as [Hnoop | (admin & _ & _ & _ & Hadmin & _)];
      [done |].
    apply select_one_Some in Hadmin as [Hin _]. rewrite Hnone in Hin. destruct Hin.
  - intros w created u Hact Hview Hsent Hc Ht Hcreated Hage Hquiet Hin Hsuper.
    destruct (select_one_exists (fun u => is_superuser u) (User_table w) u Hin Hsuper)
      as [admin Hadmin].
    exists admin. split; [exact Hadmin |].
    assert (fst (should_send_abandoment_email w) = Returned true) as Hshould.
    { rewrite should_send_abandoment_email_run. cbn [fst]. f_equal.
      apply abandonment_predicate_conditions. rewrite Hact, Hview, Hcreated.
      split; [by exists created |]. split; [| split; by left].
      destruct (sql_max (date_joined <$> User_table w)) as [m|] eqn:Hm; [| by left].
      right. exists m. split; [reflexivity |].
      apply sql_max_In in Hm. apply in_map_iff in Hm as (v & <- & Hv).
      by apply Hquiet. }
    rewrite (AbandonmentEmail_attempts w admin) by assumption. cbn [snd].
    split; [apply abandonment_attempt_sends |].
    unfold after_attempt. by destruct (delivery _ _ _).
Qed.

Lemma abandonment_with_absent_signals_witness :
  should_send_abandoment_email_4 (weeks 4) (Some 0) None None None = true
  /\ AbandonmentEmail (instance (weeks 100) [] [] [] true true None)
     = (Returned tt, instance (weeks 100) [] [] [] true true None)
  /\ exists admin,
      administrator (instance (weeks 4) [founder] [] [] true true None) = Some admin
      /\ send_attempts
           (journal (snd (AbandonmentEmail (instance (weeks 4) [founder] [] [] true true None))))
         = [] ++ [(email admin, "abandon")]
      /\ setting_abandonment_email_sent
           (snd (AbandonmentEmail (instance (weeks 4) [founder] [] [] true true None))) = true.
Proof.
  destruct abandonment_with_absent_signals as (Hpred & Hnone & Hsend).
  split; [| split].
  - apply Hpred. reflexivity.
  - apply Hnone. reflexivity.
  - apply (Hsend (instance (weeks 4) [founder] [] [] true true None) 0 founder);
      try reflexivity.
    + intros v [<- | []]. done.
    + by left.
Defined.

(* ===================================================================== *)
(** * Delivery failures *)
(* ===================================================================== *)

Lemma new_entries_unique (j extra extra' : list Event) :
  j ++ extra' = j ++ extra -> extra = extra'.
Proof. intros H. by apply app_inv_head in H. Qed.

(** C4. For either job: the run always returns normally; and when the
    entries a run adds to the journal contain a send attempt that threw [e],
    they also contain the job's error line for [e], and the job's sent-flag
    is true after the run. *)
Theorem thrown_delivery_is_caught_and_flag_set :
  (forall w, fst (FollowUpEmail w) = Returned tt
             /\ fst (AbandonmentEmail w) = Returned tt)
  /\ (forall w extra address template e,
      journal (snd (FollowUpEmail w)) = journal w ++ extra ->
      In (SendAttempt address template (Some e)) extra ->
      In (LogError "Problem sending follow-up email:" e) extra
      /\ setting_follow_up_email_sent (snd (FollowUpEmail w)) = true)
  /\ (forall w extra address template e,
      journal (snd (AbandonmentEmail w)) = journal w ++ extra ->
      In (SendAttempt address template (Some e)) extra ->
      In (LogError "Problem sending abandonment email" e) extra
      /\ setting_abandonment_email_sent (snd (AbandonmentEmail w)) = true).
Proof.
  split; [| split].
  - intros w. by rewrite FollowUpEmail_run, AbandonmentEmail_run.
  - intros w extra address template e Hjournal Hthrown.
    destruct (FollowUpEmail_outcome w)
      as [Hnoop | (created & admin & _ & _ & _ & _ & _ & _ & Hrun)];
      rewrite ?Hnoop, ?Hrun in *; cbn [snd] in *.
    + rewrite <- (app_nil_r (journal w)) in Hjournal at 1.
      apply new_entries_unique in Hjournal as ->. destruct Hthrown.
    + unfold after_attempt in *.
      destruct (delivery w (email admin) "follow-up") as [e'|];
        cbn [journal with_follow_up_email_sent record_event] in Hjournal;
        rewrite <- ?app_assoc in Hjournal;
        apply new_entries_unique in Hjournal as ->.
      * destruct Hthrown as [[= _ _ ->] | [[=] | []]].
        split; [right; by left | reflexivity].
      * destruct Hthrown as [[=] | []].
  - intros w extra address template e Hjournal Hthrown.
    destruct (AbandonmentEmail_outcome w)
      as [Hnoop | (admin & _ & _ & _ & _ & _ & Hrun)];
      rewrite ?Hnoop, ?Hrun in *; cbn [snd] in *.
    + rewrite <- (app_nil_r (journal w)) in Hjournal at 1.
      apply new_entries_unique in Hjournal as ->. destruct Hthrown.
    + unfold after_attempt in *.
      cbn [delivery record_event] in Hjournal.
      destruct (delivery w (email admin) "abandon") as [e'|];
        cbn [journal with_abandonment_email_sent record_event] in Hjournal;
        rewrite <- ?app_assoc in Hjournal;
        apply new_entries_unique in Hjournal as ->.
      * destruct Hthrown as [[=] | [[= _ _ ->] | [[=] | []]]].
        split; [right; right; by left | reflexivity].
      * destruct Hthrown as [[=] | [[=] | []]].
Qed.

Lemma thrown_delivery_is_caught_and_flag_set_witness :
  let w := instance (weeks 5) [founder] [] [] true true (Some "SMTP timeout") in
  (In (LogError "Problem sending follow-up email:" "SMTP timeout")
      [SendAttempt "admin@example.com" "follow-up" (Some "SMTP timeout");
       LogError "Problem sending follow-up email:" "SMTP timeout"]
   /\ setting_follow_up_email_sent (snd (FollowUpEmail w)) = true)
  /\ (In (LogError "Problem sending abandonment email" "SMTP timeout")
         [LogInfo "Sending abandonment email!";
          SendAttempt "admin@example.com" "abandon" (Some "SMTP timeout");
          LogError "Problem sending abandonment email" "SMTP timeout"]
      /\ setting_abandonment_email_sent (snd (AbandonmentEmail w)) = true).
Proof.
  destruct thrown_delivery_is_caught_and_flag_set as (_ & Hfollow & Habandon).
  split.
  - apply (Hfollow (instance (weeks 5) [founder] [] [] true true (Some "SMTP timeout"))
             _ "admin@example.com" "follow-up"); [reflexivity | by left].
  - apply (Habandon (instance (weeks 5) [founder] [] [] true true (Some "SMTP timeout"))
             _ "admin@example.com" "abandon"); [reflexivity | right; by left].
Defined.

(* ===================================================================== *)
(** * Who receives the two emails *)
(* ===================================================================== *)

(** C9. Every attempt of the follow-up job goes to a user who is a
    superuser and active, every attempt of the abandonment job to a user who
    is a superuser (active or not).  So where every superuser is inactive,
    a run of the follow-up job changes nothing (no attempt, flag as before),
    while the abandonment job still sends: the instance whose only user is a
    deactivated superuser who joined 5 weeks ago is an example. *)
Theorem recipients_of_the_two_jobs :
  (forall w, snd (FollowUpEmail w) = w
             \/ exists admin,
                 In admin (User_table w)
                 /\ is_superuser admin = true /\ is_active admin = true
                 /\ send_attempts (journal (snd (FollowUpEmail w)))
                    = send_attempts (journal w) ++ [(email admin, "follow-up")])
  /\ (forall w, snd (AbandonmentEmail w) = w
                \/ exists admin,
                    In admin (User_table w) /\ is_superuser admin = true
                    /\ send_attempts (journal (snd (AbandonmentEmail w)))
                       = send_attempts (journal w) ++ [(email admin, "abandon")])
  /\ (forall w,
      (forall u, In u (User_table w) -> is_superuser u = true -> is_active u = false) ->
      FollowUpEmail w = (Returned tt, w))
  /\ (let w := instance (weeks 5) [deactivated_founder] [] [] true true None in
      (forall u, In u (User_table w) -> is_superuser u = true -> is_active u = false)
      /\ FollowUpEmail w = (Returned tt, w)
      /\ send_attempts (journal (snd (AbandonmentEmail w)))
         = [("admin@example.com", "abandon")]
      /\ setting_abandonment_email_sent (snd (AbandonmentEmail w)) = true).
Proof.
  split; [| split; [| split]].
  - intros w.
    destruct (FollowUpEmail_effect w) as [Hnoop | (_ & _ & _ & admin & Hadmin & Hj)];
      [by left | right].
    exists admin. apply select_one_Some in Hadmin as [Hin Hwhere].
    apply andb_true_iff in Hwhere as [Hs Ha]. done.
  - intros w.
    destruct (AbandonmentEmail_effect w) as [Hnoop | (_ & _ & _ & admin & Hadmin & Hj)];
      [by left | right].
    exists admin. apply select_one_Some in Hadmin as [Hin Hs]. done.
  - intros w Hinactive.
    destruct (FollowUpEmail_outcome w)
      as [Hnoop | (c & admin & _ & _ & _ & _ & _ & Hadmin & _)]; [done |].
    apply select_one_Some in Hadmin as [Hin Hwhere].
    apply andb_true_iff in Hwhere as [Hs Ha].
    rewrite (Hinactive admin Hin Hs) in Ha. discriminate.
  - split; [| by repeat split].
    intros u [<- | []] _. reflexivity.
Qed.

Lemma recipients_of_the_two_jobs_witness :
  let w := instance (weeks 3) [deactivated_founder; analyst] [] [] true true None in
  FollowUpEmail w = (Returned tt, w).
Proof.
  apply (proj1 (proj2 (proj2 recipients_of_the_two_jobs))).
  intros u [<- | [<- | []]]; [reflexivity | discriminate].
Defined.

(* ===================================================================== *)
(** * Permission lookups default to "no" *)
(* ===================================================================== *)

Import Permissions.

Lemma getIn_undefined path : getIn JsUndefined path = JsUndefined.
Proof. unfold getIn. induction path as [|key rest IH]; [reflexivity | exact IH]. Qed.

Lemma getIn_cons coll key rest :
  getIn coll (key :: rest)
  = getIn (if falsy coll then JsUndefined else get_property coll key) rest.
Proof. reflexivity. Qed.

(** Where the graph has no entry at a path, [getIn] gives [undefined]. *)
Lemma getIn_no_entry path : forall graph,
  entry_at graph path = None -> getIn graph path = JsUndefined.
Proof.
  induction path as [|key rest IH]; intros graph Hnone; [discriminate |].
  rewrite getIn_cons.
  destruct graph as [| | s | fields]; cbn [falsy get_property].
  - apply getIn_undefined.
  - apply getIn_undefined.
  - destruct (decide (s = "")); apply getIn_undefined.
  - cbn [entry_at] in Hnone.
    destruct (fields !! key) as [v|]; cbn [default]; [by apply IH |].
    apply getIn_undefined.
Qed.

(** C10. For every permissions graph, group id, database id and
    application permission key: [getDetailsPermission] is "no" whenever the
    graph has no entry at [groupId, databaseId, "details"], and
    [getApplicationPermission] is "no" whenever it has no entry at
    [groupId, permissionKey]. *)
Theorem permission_lookups_default_to_no :
  (forall permissions groupId databaseId,
      entry_at permissions [ToString groupId; ToString databaseId; "details"] = None ->
      getDetailsPermission permissions groupId databaseId = JsString "no")
  /\ (forall permissions groupId permissionKey,
      entry_at permissions [ToString groupId; key_name permissionKey] = None ->
      getApplicationPermission permissions groupId permissionKey = JsString "no").
Proof.
  split.
  - intros permissions groupId databaseId Hnone.
    unfold getDetailsPermission. by rewrite (getIn_no_entry _ _ Hnone).
  - intros permissions groupId permissionKey Hnone.
    unfold getApplicationPermission. by rewrite (getIn_no_entry _ _ Hnone).
Qed.

Lemma permission_lookups_default_to_no_witness :
  getDetailsPermission
    (JsObject {[ "1" := JsObject {[ "7" := JsObject {[ "data" := JsString "all" ]} ]} ]})
    1 7 = JsString "no"
  /\ getApplicationPermission
       (JsObject {[ "1" := JsObject {[ "setting" := JsString "yes" ]} ]})
       2 monitoring = JsString "no".
Proof.
  split.
  - apply (proj1 permission_lookups_default_to_no). vm_compute. reflexivity.
  - apply (proj2 permission_lookups_default_to_no). vm_compute. reflexivity.
Defined.

Example getDetailsPermission_present :
  getDetailsPermission
    (JsObject {[ "1" := JsObject {[ "7" := JsObject {[ "details" := JsString "yes" ]} ]} ]})
    1 7 = JsString "yes".
Proof. vm_compute. reflexivity. Qed.

(* ===================================================================== *)
(** * Sample runs *)
(* ===================================================================== *)

Example FollowUpEmail_first_run :
  journal (snd (FollowUpEmail (instance (weeks 3) [founder; analyst] [] [] true true None)))
  = [SendAttempt "admin@example.com" "follow-up" None].
Proof. reflexivity. Qed.

Example FollowUpEmail_failed_delivery :
  FollowUpEmail (instance (weeks 3) [founder] [] [] true true (Some "connection refused"))
  = (Returned tt,
     with_follow_up_email_sent true
       (record_event (LogError "Problem sending follow-up email:" "connection refused")
          (record_event
             (SendAttempt "admin@example.com" "follow-up" (Some "connection refused"))
             (instance (weeks 3) [founder] [] [] true true (Some "connection refused"))))).
Proof. reflexivity. Qed.

Example AbandonmentEmail_recent_view :
  journal (snd (AbandonmentEmail
                  (instance (weeks 5) [founder] [] [weeks 4] true true None)))
  = [].
Proof. reflexivity. Qed.

Example AbandonmentEmail_idle :
  journal (snd (AbandonmentEmail
                  (instance (weeks 5) [founder; analyst] [weeks 2] [weeks 3] true true None)))
  = [LogInfo "Sending abandonment email!";
     SendAttempt "admin@example.com" "abandon" None].
Proof. reflexivity. Qed.

(* ===================================================================== *)
(** * More on the two jobs *)
(* ===================================================================== *)

Import Runs.

(** ** The clock and the tables *)






(** X2. The four-argument predicate is monotone in the clock: once it holds
    it keeps holding at every later time, as long as the four timestamps stay
    the same. *)
Theorem abandonment_due_stays_due now now' ic lu la lv :
  now <= now' ->
  should_send_abandoment_email_4 now ic lu la lv = true ->
  should_send_abandoment_email_4 now' ic lu la lv = true.
Proof.
  intros Hlater. rewrite !abandonment_predicate_conditions.
  intros ((c & Hc & Hage) & Hu & Ha & Hv).
  assert (forall signal : option Temporal,
             signal = None \/ (exists t, signal = Some t /\ weeks 2 <= now - t) ->
             signal = None \/ (exists t, signal = Some t /\ weeks 2 <= now' - t)) as Hstep.
  { intros signal [-> | (t & -> & Ht)]; [by left |].
    right. exists t. split; [reflexivity | lia]. }
  split; [exists c; split; [assumption | lia] |].
  auto.
Qed.

Lemma abandonment_due_stays_due_witness :
  should_send_abandoment_email_4 (weeks 9) (Some 0) (Some (weeks 2)) None (Some (weeks 1))
  = true.
Proof.
  apply (abandonment_due_stays_due (weeks 4) (weeks 9)); [done | reflexivity].
Defined.

(** ** A run in closed form *)

Lemma FollowUpEmail_due w :
  FollowUpEmail w =
  (Returned tt,
   match follow_up_due w with
   | Some admin =>
       with_follow_up_email_sent true
         (after_attempt (email admin) "follow-up" "Problem sending follow-up email:" w)
   | None => w
   end).
Proof.
  rewrite FollowUpEmail_run. unfold follow_up_due.
  destruct (setting_follow_up_email_sent w) eqn:Hsent; [reflexivity |].
  destruct (creation_timestamp w) as [created|]; [| reflexivity].
  destruct (older_than (clock w) created (weeks 2)); [| reflexivity].
  rewrite send_follow_up_email_run, Hsent. cbn [snd andb negb].
  rewrite andb_true_r.
  destruct (smtp_configured w && setting_anon_tracking_enabled w); reflexivity.
Qed.

Lemma AbandonmentEmail_due w :
  AbandonmentEmail w =
  (Returned tt,
   match abandonment_due w with
   | Some admin =>
       with_abandonment_email_sent true
         (after_attempt (email admin) "abandon" "Problem sending abandonment email"
            (record_event (LogInfo "Sending abandonment email!") w))
   | None => w
   end).
Proof.
  rewrite AbandonmentEmail_run. unfold abandonment_due.
  destruct (setting_abandonment_email_sent w); [reflexivity |].
  destruct (smtp_configured w && setting_anon_tracking_enabled w); [| reflexivity].
  rewrite send_abandoment_email_if_needed_run. cbn [snd].
  destruct (administrator w) as [admin|]; [| reflexivity].
  destruct (should_send_abandoment_email_4 _ _ _ _ _); reflexivity.
Qed.

Lemma same_surroundings_refl w : same_surroundings w w.
Proof. by repeat split. Qed.

Lemma same_surroundings_trans w1 w2 w3 :
  same_surroundings w1 w2 -> same_surroundings w2 w3 -> same_surroundings w1 w3.
Proof.
  unfold same_surroundings. intros (?&?&?&?&?&?&?) (?&?&?&?&?&?&?).
  repeat split; congruence.
Qed.

Lemma after_attempt_surroundings address template message w :
  same_surroundings w (after_attempt address template message w)
  /\ setting_follow_up_email_sent (after_attempt address template message w)
     = setting_follow_up_email_sent w
  /\ setting_abandonment_email_sent (after_attempt address template message w)
     = setting_abandonment_email_sent w.
Proof.
  unfold after_attempt. destruct (delivery w address template); by repeat split.
Qed.

Lemma follow_up_due_frame w w' :
  same_surroundings w w' ->
  setting_follow_up_email_sent w' = setting_follow_up_email_sent w ->
  follow_up_due w' = follow_up_due w.
Proof.
  intros (Hclock & Husers & _ & _ & Hc & Ht & _) Hsent.
  unfold follow_up_due, creation_timestamp. by rewrite Hclock, Husers, Hc, Ht, Hsent.
Qed.

Lemma abandonment_due_frame w w' :
  same_surroundings w w' ->
  setting_abandonment_email_sent w' = setting_abandonment_email_sent w ->
  abandonment_due w' = abandonment_due w.
Proof.
  intros (Hclock & Husers & Hact & Hview & Hc & Ht & _) Hsent.
  unfold abandonment_due, administrator, creation_timestamp.
  by rewrite Hclock, Husers, Hact, Hview, Hc, Ht, Hsent.
Qed.

(** What a run of either job leaves alone. *)
Lemma FollowUpEmail_surroundings w :
  same_surroundings w (snd (FollowUpEmail w))
  /\ setting_abandonment_email_sent (snd (FollowUpEmail w))
     = setting_abandonment_email_sent w.
Proof.
  rewrite FollowUpEmail_due. cbn [snd].
  destruct (follow_up_due w) as [admin|]; [| split; [apply same_surroundings_refl | done]].
  destruct (after_attempt_surroundings (email admin) "follow-up"
              "Problem sending follow-up email:" w) as (Hsame & _ & Hother).
  split; [exact Hsame | exact Hother].
Qed.

Lemma AbandonmentEmail_surroundings w :
  same_surroundings w (snd (AbandonmentEmail w))
  /\ setting_follow_up_email_sent (snd (AbandonmentEmail w))
     = setting_follow_up_email_sent w.
Proof.
  rewrite AbandonmentEmail_due. cbn [snd].
  destruct (abandonment_due w) as [admin|]; [| split; [apply same_surroundings_refl | done]].
  destruct (after_attempt_surroundings (email admin) "abandon"
              "Problem sending abandonment email"
              (record_event (LogInfo "Sending abandonment email!") w))
    as (Hsame & Hother & _).
  split; [exact Hsame | exact Hother].
Qed.

(** X3. A run of either job always returns, leaves the clock, the three
    tables, the mail configuration and the delivery behaviour as they were,
    and only appends to the journal: at most two entries for the follow-up
    job (attempt, error line), at most three for the abandonment job (info
    line, attempt, error line). *)
Theorem runs_only_append_to_the_journal w :
  (fst (FollowUpEmail w) = Returned tt
   /\ same_surroundings w (snd (FollowUpEmail w))
   /\ exists extra, journal (snd (FollowUpEmail w)) = journal w ++ extra
                    /\ (length extra <= 2)%nat)
  /\ (fst (AbandonmentEmail w) = Returned tt
      /\ same_surroundings w (snd (AbandonmentEmail w))
      /\ exists extra, journal (snd (AbandonmentEmail w)) = journal w ++ extra
                       /\ (length extra <= 3)%nat).
Proof.
  split.
  - split; [by rewrite FollowUpEmail_run |].
    split; [apply FollowUpEmail_surroundings |].
    rewrite FollowUpEmail_due. cbn [snd].
    destruct (follow_up_due w) as [admin|].
    + unfold after_attempt.
      destruct (delivery w (email admin) "follow-up") as [e|];
        cbn [journal with_follow_up_email_sent record_event];
        rewrite <- ?app_assoc; eexists; (split; [reflexivity | simpl; lia]).
    + exists []. split; [by rewrite app_nil_r | simpl; lia].
  - split; [by rewrite AbandonmentEmail_run |].
    split; [apply AbandonmentEmail_surroundings |].
    rewrite AbandonmentEmail_due. cbn [snd].
    destruct (abandonment_due w) as [admin|].
    + unfold after_attempt. cbn [delivery record_event].
      destruct (delivery w (email admin) "abandon") as [e|];
        cbn [journal with_abandonment_email_sent record_event];
        rewrite <- ?app_assoc; eexists; (split; [reflexivity | simpl; lia]).
    + exists []. split; [by rewrite app_nil_r | simpl; lia].
Qed.

(** X4. The two jobs do not interfere: a run of the follow-up job leaves the
    abandonment setting and the number of "abandon" attempts as they were,
    and a run of the abandonment job leaves the follow-up setting and the
    number of "follow-up" attempts as they were. *)
Theorem jobs_do_not_interfere w :
  (setting_abandonment_email_sent (snd (FollowUpEmail w))
   = setting_abandonment_email_sent w
   /\ attempts_of "abandon" (journal (snd (FollowUpEmail w)))
      = attempts_of "abandon" (journal w))
  /\ (setting_follow_up_email_sent (snd (AbandonmentEmail w))
      = setting_follow_up_email_sent w
      /\ attempts_of "follow-up" (journal (snd (AbandonmentEmail w)))
         = attempts_of "follow-up" (journal w)).
Proof.
  split.
  - destruct (FollowUpEmail_effect w) as [-> | (_ & _ & Hother & admin & _ & Hj)];
      [done |].
    split; [exact Hother |].
    by rewrite (attempts_of_snoc "abandon" _ _ _ _ Hj), Nat.add_0_r.
  - destruct (AbandonmentEmail_effect w) as [-> | (_ & _ & Hother & admin & _ & Hj)];
      [done |].
    split; [exact Hother |].
    by rewrite (attempts_of_snoc "follow-up" _ _ _ _ Hj), Nat.add_0_r.
Qed.

(** X5. Either job is idempotent: whatever the first run did, a second run
    right after it returns with the world unchanged. *)
Theorem jobs_are_idempotent w :
  FollowUpEmail (snd (FollowUpEmail w)) = (Returned tt, snd (FollowUpEmail w))
  /\ AbandonmentEmail (snd (AbandonmentEmail w)) = (Returned tt, snd (AbandonmentEmail w)).
Proof.
  split.
  - destruct (FollowUpEmail_effect w) as [Hnoop | (_ & Hsent & _)].
    + rewrite Hnoop. rewrite (surjective_pairing (FollowUpEmail w)) at 1.
      rewrite Hnoop. f_equal. by rewrite FollowUpEmail_run.
    + rewrite (FollowUpEmail_run (snd (FollowUpEmail w))), Hsent. reflexivity.
  - destruct (AbandonmentEmail_effect w) as [Hnoop | (_ & Hsent & _)].
    + rewrite Hnoop. rewrite (surjective_pairing (AbandonmentEmail w)) at 1.
      rewrite Hnoop. f_equal. by rewrite AbandonmentEmail_run.
    + rewrite (AbandonmentEmail_run (snd (AbandonmentEmail w))), Hsent. reflexivity.
Qed.



(** X7. Only [send-follow-up-email!] looks at its setting itself.  Called
    with the follow-up setting true it does nothing, whereas
    [send-abandoment-email-if-needed!] checks neither its setting nor the mail
    configuration: whenever a superuser exists and the predicate holds it
    makes an attempt, and called again right away it makes a second one.  What
    keeps the abandonment email to one is the check in [AbandonmentEmail]. *)
Theorem abandonment_guard_lives_in_the_job :
  (forall w, setting_follow_up_email_sent w = true ->
             send_follow_up_email w = (Returned tt, w))
  /\ (forall w admin,
      administrator w = Some admin ->
      should_send_abandoment_email w = (Returned true, w) ->
      send_attempts (journal (snd (send_abandoment_email_if_needed w)))
      = send_attempts (journal w) ++ [(email admin, "abandon")]
      /\ send_attempts
           (journal (snd (send_abandoment_email_if_needed
                            (snd (send_abandoment_email_if_needed w)))))
         = send_attempts (journal w)
           ++ [(email admin, "abandon"); (email admin, "abandon")]).
Proof.
  split.
  - intros w Hsent. rewrite send_follow_up_email_run, Hsent.
    by rewrite andb_false_r.
  - intros w admin Hadmin Hshould.
    rewrite should_send_abandoment_email_run in Hshould.
    injection Hshould as Hshould.
    assert (forall w', same_surroundings w w' ->
              snd (send_abandoment_email_if_needed w')
              = with_abandonment_email_sent true
                  (after_attempt (email admin) "abandon"
                     "Problem sending abandonment email"
                     (record_event (LogInfo "Sending abandonment email!") w')))
      as Hcall.
    { intros w' (Hclock & Husers & Hact & Hview & _).
      rewrite send_abandoment_email_if_needed_run. cbn [snd].
      unfold administrator, creation_timestamp in *.
      by rewrite Hclock, Husers, Hact, Hview, Hadmin, Hshould. }
    assert (same_surroundings w (snd (send_abandoment_email_if_needed w))) as Hsame.
    { rewrite (Hcall w (same_surroundings_refl w)).
      apply (after_attempt_surroundings (email admin) "abandon"
               "Problem sending abandonment email"
               (record_event (LogInfo "Sending abandonment email!") w)). }
    rewrite (Hcall _ Hsame), abandonment_attempt_sends.
    rewrite (Hcall w (same_surroundings_refl w)), abandonment_attempt_sends.
    split; [reflexivity | by rewrite <- app_assoc].
Qed.

Lemma abandonment_guard_lives_in_the_job_witness :
  let sent := with_follow_up_email_sent true
                (with_abandonment_email_sent true
                   (instance (weeks 5) [founder] [] [] false false None)) in
  send_follow_up_email sent = (Returned tt, sent)
  /\ send_attempts (journal (snd (send_abandoment_email_if_needed sent)))
     = send_attempts (journal sent) ++ [(email founder, "abandon")]
  /\ send_attempts
       (journal (snd (send_abandoment_email_if_needed
                        (snd (send_abandoment_email_if_needed sent)))))
     = send_attempts (journal sent)
       ++ [(email founder, "abandon"); (email founder, "abandon")].
Proof.
  split.
  - apply (proj1 abandonment_guard_lives_in_the_job). reflexivity.
  - apply (proj2 abandonment_guard_lives_in_the_job); reflexivity.
Defined.

(** X8. The order in which the two triggers fire does not matter: running
    the follow-up job and then the abandonment job ends with the same
    settings and surroundings as the other order, and with the same journal
    entries up to their order. *)
Theorem jobs_commute w :
  let fa := snd (AbandonmentEmail (snd (FollowUpEmail w))) in
  let af := snd (FollowUpEmail (snd (AbandonmentEmail w))) in
  same_surroundings fa af
  /\ setting_follow_up_email_sent fa = setting_follow_up_email_sent af
  /\ setting_abandonment_email_sent fa = setting_abandonment_email_sent af
  /\ journal fa ≡ₚ journal af.
Proof.
  intros fa af. subst fa af.
  destruct (FollowUpEmail_surroundings w) as [HsameF HotherF].
  destruct (AbandonmentEmail_surroundings w) as [HsameA HotherA].
  rewrite (AbandonmentEmail_due (snd (FollowUpEmail w))).
  rewrite (FollowUpEmail_due (snd (AbandonmentEmail w))).
  rewrite (abandonment_due_frame _ _ HsameF HotherF).
  rewrite (follow_up_due_frame _ _ HsameA HotherA).
  rewrite FollowUpEmail_due, AbandonmentEmail_due. cbn [snd].
  destruct (follow_up_due w) as [f|], (abandonment_due w) as [a|];
    unfold after_attempt; cbn [delivery record_event with_follow_up_email_sent
                               with_abandonment_email_sent].
  - destruct (delivery w (email f) "follow-up") as [ef|] eqn:Hf;
      destruct (delivery w (email a) "abandon") as [ea|] eqn:Ha;
      repeat (cbn [delivery record_event with_follow_up_email_sent
                   with_abandonment_email_sent];
              rewrite ?Hf, ?Ha);
      (split; [by repeat split |]); (split; [reflexivity |]); (split; [reflexivity |]);
      cbn [journal record_event with_follow_up_email_sent with_abandonment_email_sent];
      rewrite <- !app_assoc; apply Permutation_app_head;
      simpl; solve_Permutation.
  - destruct (delivery w (email f) "follow-up") as [ef|]; by repeat split.
  - destruct (delivery w (email a) "abandon") as [ea|]; by repeat split.
  - by repeat split.
Qed.

(* ===================================================================== *)
(** * More on the permission readers *)
(* ===================================================================== *)

(** [getIn] gives the entry of the graph at the path, [undefined] where
    there is none. *)
Lemma getIn_entry path : forall graph,
  getIn graph path = default JsUndefined (entry_at graph path).
Proof.
  induction path as [|key rest IH]; intros graph; [reflexivity |].
  destruct (entry_at graph (key :: rest)) as [v|] eqn:Hentry;
    [| by apply getIn_no_entry].
  rewrite getIn_cons. cbn [entry_at] in Hentry.
  destruct graph as [| | s | fields]; try discriminate.
  cbn [falsy get_property].
  destruct (fields !! key) as [v'|]; [| discriminate].
  cbn [default from_option id]. by rewrite IH, Hentry.
Qed.

(** X9. Both readers hand back whatever the graph stores at the path,
    unchanged, unless that is [null] or [undefined]; a stored [null] or
    [undefined] reads as "no" like a missing entry. *)
Theorem permission_lookups_return_the_entry :
  (forall permissions groupId databaseId v,
      entry_at permissions [ToString groupId; ToString databaseId; "details"] = Some v ->
      getDetailsPermission permissions groupId databaseId
      = match v with JsUndefined | JsNull => JsString "no" | _ => v end)
  /\ (forall permissions groupId permissionKey v,
      entry_at permissions [ToString groupId; key_name permissionKey] = Some v ->
      getApplicationPermission permissions groupId permissionKey
      = match v with JsUndefined | JsNull => JsString "no" | _ => v end).
Proof.
  split.
  - intros permissions groupId databaseId v Hentry.
    unfold getDetailsPermission. rewrite getIn_entry, Hentry. by destruct v.
  - intros permissions groupId permissionKey v Hentry.
    unfold getApplicationPermission. rewrite getIn_entry, Hentry. by destruct v.
Qed.

Lemma permission_lookups_return_the_entry_witness :
  getDetailsPermission
    (JsObject {[ "3" := JsObject {[ "7" := JsObject {[ "details" := JsString "" ]} ]} ]})
    3 7 = JsString ""
  /\ getApplicationPermission
       (JsObject {[ "3" := JsObject {[ "monitoring" := JsNull ]} ]})
       3 monitoring = JsString "no".
Proof.
  split.
  - apply (proj1 permission_lookups_return_the_entry _ 3 7 (JsString "")).
    vm_compute. reflexivity.
  - apply (proj2 permission_lookups_return_the_entry _ 3 monitoring JsNull).
    vm_compute. reflexivity.
Defined.

Lemma ToString_inj g g' : ToString g = ToString g' -> g = g'.
Proof. unfold ToString. apply pretty_Z_inj. Qed.

Lemma key_name_inj k k' : key_name k = key_name k' -> k = k'.
Proof. destruct k, k'; simpl; intros H; try reflexivity; discriminate. Qed.

Lemma getIn_object_cons fields key rest :
  getIn (JsObject fields) (key :: rest)
  = getIn (default JsUndefined (fields !! key)) rest.
Proof. reflexivity. Qed.

(** X10. Groups are read independently: replacing or removing the subtree
    of one group in the graph changes neither reader's answer for any other
    group.  And a string stored for a group and key is the value read back:
    with it under [groupId, permissionKey], [getApplicationPermission]
    returns it, whatever else the graph holds. *)
Theorem permission_lookups_are_per_group :
  (forall (fields : gmap string JsValue) subtree groupId other databaseId permissionKey,
      groupId <> other ->
      getDetailsPermission (JsObject (<[ToString other := subtree]> fields))
        groupId databaseId
      = getDetailsPermission (JsObject fields) groupId databaseId
      /\ getDetailsPermission (JsObject (delete (ToString other) fields))
           groupId databaseId
         = getDetailsPermission (JsObject fields) groupId databaseId
      /\ getApplicationPermission (JsObject (<[ToString other := subtree]> fields))
           groupId permissionKey
         = getApplicationPermission (JsObject fields) groupId permissionKey
      /\ getApplicationPermission (JsObject (delete (ToString other) fields))
           groupId permissionKey
         = getApplicationPermission (JsObject fields) groupId permissionKey)
  /\ (forall (fields row : gmap string JsValue) groupId permissionKey answer,
      getApplicationPermission
        (JsObject (<[ToString groupId :=
                       JsObject (<[key_name permissionKey := JsString answer]> row)]>
                     fields))
        groupId permissionKey
      = JsString answer).
Proof.
  split.
  - intros fields subtree groupId other databaseId permissionKey Hne.
    assert (ToString other <> ToString groupId) as Hkey
      by (intros H; apply ToString_inj in H; congruence).
    unfold getDetailsPermission, getApplicationPermission.
    rewrite !getIn_object_cons.
    by rewrite (lookup_insert_ne fields _ _ subtree Hkey),
               (lookup_delete_ne fields _ _ Hkey).
  - intros fields row groupId permissionKey answer.
    unfold getApplicationPermission.
    rewrite getIn_object_cons, lookup_insert_eq. cbn [default from_option id].
    rewrite getIn_object_cons, lookup_insert_eq. cbn [default from_option id getIn fold_left].
    reflexivity.
Qed.

Lemma permission_lookups_are_per_group_witness :
  getDetailsPermission (JsObject (<[ToString 2 := JsNull]> ∅)) 1 7
  = getDetailsPermission (JsObject ∅) 1 7
  /\ getApplicationPermission
       (JsObject (<[ToString 4 := JsObject (<[key_name setting := JsString "yes"]> ∅)]> ∅))
       4 setting
     = JsString "yes".
Proof.
  split.
  - apply (proj1 permission_lookups_are_per_group ∅ JsNull 1 2 7 setting). done.
  - apply (proj2 permission_lookups_are_per_group ∅ ∅ 4 setting "yes").
Defined.

(* ===================================================================== *)
(** * The application permission editor *)
(* ===================================================================== *)

Import ApplicationPermissionsEditor.

Section EditorFacts.

Variable getDefaultGroupHasHigherAccessText : Group -> string.
Variable isAdminGroup : Group -> bool.
Variable UNABLE_TO_CHANGE_ADMIN_PERMISSIONS : string.
Variable PermissionOption : Type.
Variable OPTION_yes OPTION_no : PermissionOption.

Let cell := getPermission getDefaultGroupHasHigherAccessText
              UNABLE_TO_CHANGE_ADMIN_PERMISSIONS PermissionOption OPTION_yes OPTION_no.
Let editor_of := getApplicationPermissionEditor getDefaultGroupHasHigherAccessText
                   isAdminGroup UNABLE_TO_CHANGE_ADMIN_PERMISSIONS
                   PermissionOption OPTION_yes OPTION_no.

Lemma strict_equals_string_true v literal :
  strict_equals_string v literal = true <-> v = JsString literal.
Proof.
  destruct v as [| | s | fields]; simpl; try (split; discriminate).
  destruct (decide (s = literal)) as [-> | Hne]; split; try done.
  intros [= ->]. done.
Qed.

Lemma getPermissionWarning_Some value defaultGroupValue defaultGroup groupId :
  is_Some (getPermissionWarning getDefaultGroupHasHigherAccessText
             value defaultGroupValue defaultGroup groupId)
  <-> defaultGroupValue = JsString "yes" /\ value = JsString "no".
Proof.
  unfold getPermissionWarning.
  rewrite <- !strict_equals_string_true, <- andb_true_iff.
  destruct (strict_equals_string defaultGroupValue "yes"
            && strict_equals_string value "no"); split; try done.
Qed.

(** X11. A cell carries a warning exactly when the graph reads "yes" for the
    default group and "no" for the cell's group (a missing entry reads "no"),
    and the warning is then the "default group has higher access" text for
    the default group; so the default group's own cells never carry one. *)
Theorem warning_only_below_the_default_group
    permissions isAdmin groupId defaultGroup permissionKey :
  (is_Some (warning (cell permissions isAdmin groupId defaultGroup permissionKey))
   <-> getApplicationPermission permissions (group_id defaultGroup) permissionKey
       = JsString "yes"
       /\ getApplicationPermission permissions groupId permissionKey = JsString "no")
  /\ (forall text,
        warning (cell permissions isAdmin groupId defaultGroup permissionKey) = Some text ->
        text = getDefaultGroupHasHigherAccessText defaultGroup)
  /\ warning (cell permissions isAdmin (group_id defaultGroup) defaultGroup permissionKey)
     = None.
Proof.
  subst cell. cbn [warning getPermission]. split; [| split].
  - apply getPermissionWarning_Some.
  - unfold getPermissionWarning. intros text.
    destruct (_ && _); [by intros [= <-] | discriminate].
  - destruct (getPermissionWarning _ _ _ _ _) as [text|] eqn:Hwarning; [| reflexivity].
    assert (is_Some (getPermissionWarning getDefaultGroupHasHigherAccessText
              (getApplicationPermission permissions (group_id defaultGroup) permissionKey)
              (getApplicationPermission permissions (group_id defaultGroup) permissionKey)
              defaultGroup (group_id defaultGroup))) as Hsome by (by rewrite Hwarning).
    apply getPermissionWarning_Some in Hsome as [Hyes Hno]. congruence.
Qed.

(** X12. A group the graph does not mention is warned about as soon as the
    default group holds "yes": with "yes" stored for the default group under
    a key and no entry for the other group there, the cell reads "no" and
    carries the warning. *)
Theorem missing_group_is_warned_about
    permissions isAdmin groupId defaultGroup permissionKey :
  entry_at permissions [ToString (group_id defaultGroup); key_name permissionKey]
  = Some (JsString "yes") ->
  entry_at permissions [ToString groupId; key_name permissionKey] = None ->
  value (cell permissions isAdmin groupId defaultGroup permissionKey) = JsString "no"
  /\ warning (cell permissions isAdmin groupId defaultGroup permissionKey)
     = Some (getDefaultGroupHasHigherAccessText defaultGroup).
Proof.
  intros Hdefault Hmissing.
  assert (getApplicationPermission permissions groupId permissionKey = JsString "no")
    as Hno by (unfold getApplicationPermission; by rewrite (getIn_no_entry _ _ Hmissing)).
  assert (getApplicationPermission permissions (group_id defaultGroup) permissionKey
          = JsString "yes")
    as Hyes by (unfold getApplicationPermission; by rewrite getIn_entry, Hdefault).
  subst cell. cbn [value warning getPermission]. split; [exact Hno |].
  by rewrite Hno, Hyes.
Qed.

(** X13. The editor is [null] exactly when the permissions are missing (or
    otherwise falsy), the groups are [null] or there is no default group.
    Otherwise it has one row per group of the flattened group lists, in
    their order and with their ids and names; every row has the three cells
    "setting", "monitoring", "subscription" in this order, one for each
    column after the name column; and the cells of a row are disabled, with
    the tooltip, exactly when the row's group is the admin group. *)
Theorem editor_rows permissions groups defaultGroup :
  (editor_of permissions groups defaultGroup = None
   <-> falsy permissions = true \/ groups = None \/ defaultGroup = None)
  /\ (forall editor,
        editor_of permissions groups defaultGroup = Some editor ->
        exists every_group,
          groups = Some every_group
          /\ List.map (fun row => (entity_id row, entity_name row)) (entities editor)
             = List.map (fun g => (group_id g, group_name g)) (List.concat every_group)
          /\ Forall (fun row =>
                       List.map permission (ApplicationPermissionsEditor.permissions row)
                       = [setting; monitoring; subscription]
                       /\ S (length (ApplicationPermissionsEditor.permissions row)) = length (columns editor))
                    (entities editor)
          /\ Forall2 (fun g row =>
                        Forall (fun c =>
                                  isDisabled c = isAdminGroup g
                                  /\ disabledTooltip c
                                     = (if isAdminGroup g
                                        then Some UNABLE_TO_CHANGE_ADMIN_PERMISSIONS
                                        else None))
                               (ApplicationPermissionsEditor.permissions row))
                     (List.concat every_group) (entities editor)).
Proof.
  subst editor_of. unfold getApplicationPermissionEditor. split.
  - destruct groups as [gs|], defaultGroup as [dg|], (falsy permissions);
      split; try done; try (intros _; auto; fail).
    intros [? | [? | ?]]; discriminate.
  - intros editor. destruct groups as [gs|]; [| discriminate].
    destruct defaultGroup as [dg|]; [| discriminate].
    destruct (falsy permissions); [discriminate |].
    intros [= <-]. exists gs. cbn [entities columns]. split; [reflexivity |].
    split; [| split].
    + rewrite List.map_map. reflexivity.
    + apply Forall_map. apply Forall_forall. intros g _. by split.
    + induction (List.concat gs) as [|g rest IH]; simpl; constructor; [| exact IH].
      repeat constructor.
Qed.

End EditorFacts.

Lemma warning_only_below_the_default_group_witness :
  is_Some (warning (getPermission (fun g => group_name g) "locked" string "yes" "no"
                      (JsObject {[ "1" := JsObject {[ "setting" := JsString "yes" ]} ]})
                      false 2 (mkGroup 1 "All Users") setting))
  /\ warning (getPermission (fun g => group_name g) "locked" string "yes" "no"
                (JsObject {[ "1" := JsObject {[ "setting" := JsString "yes" ]} ]})
                false 1 (mkGroup 1 "All Users") setting)
     = None.
Proof.
  split.
  - apply (proj2 (proj1 (warning_only_below_the_default_group
                           (fun g => group_name g) "locked" string "yes" "no"
                           (JsObject {[ "1" := JsObject {[ "setting" := JsString "yes" ]} ]})
                           false 2 (mkGroup 1 "All Users") setting))).
    split; vm_compute; reflexivity.
  - apply (proj2 (proj2 (warning_only_below_the_default_group
                           (fun g => group_name g) "locked" string "yes" "no"
                           (JsObject {[ "1" := JsObject {[ "setting" := JsString "yes" ]} ]})
                           false 2 (mkGroup 1 "All Users") setting))).
Defined.

Lemma missing_group_is_warned_about_witness :
  value (getPermission (fun g => group_name g) "locked" string "yes" "no"
           (JsObject {[ "1" := JsObject {[ "setting" := JsString "yes" ]} ]})
           false 2 (mkGroup 1 "All Users") setting)
  = JsString "no"
  /\ warning (getPermission (fun g => group_name g) "locked" string "yes" "no"
                (JsObject {[ "1" := JsObject {[ "setting" := JsString "yes" ]} ]})
                false 2 (mkGroup 1 "All Users") setting)
     = Some "All Users".
Proof.
  apply (missing_group_is_warned_about (fun g => group_name g) "locked" string "yes" "no");
    vm_compute; reflexivity.
Defined.

Lemma editor_rows_witness :
  exists editor,
    getApplicationPermissionEditor
      (fun g => group_name g)
      (fun g => if decide (group_name g = "Administrators") then true else false)
      "locked" string "yes" "no"
      (JsObject ∅)
      (Some [[mkGroup 2 "Administrators"]; [mkGroup 1 "All Users"; mkGroup 5 "Sales"]])
      (Some (mkGroup 1 "All Users"))
    = Some editor
    /\ List.map (fun row => (entity_id row, entity_name row)) (entities editor)
       = [(2, "Administrators"); (1, "All Users"); (5, "Sales")].
Proof.
  eexists. split; [reflexivity |].
  destruct (proj2 (editor_rows
                     (fun g => group_name g)
                     (fun g => if decide (group_name g = "Administrators")
                               then true else false)
                     "locked" string "yes" "no"
                     (JsObject ∅)
                     (Some [[mkGroup 2 "Administrators"];
                            [mkGroup 1 "All Users"; mkGroup 5 "Sales"]])
                     (Some (mkGroup 1 "All Users"))) _ eq_refl)
    as (every_group & Hgroups & Hrows & _).
  injection Hgroups as <-. exact Hrows.
Defined.

(* ===================================================================== *)
(** * Paging through the model cache jobs *)
(* ===================================================================== *)

Import ModelCacheRefreshJobs.

(** X14. The list queries of the pages tile the job list: the row at a
    position is asked for by exactly one page, the one numbered
    [position / PAGE_SIZE].  And the pagination controls are hidden exactly
    when the query of the first page asks for every row there is. *)
Theorem pages_tile_the_job_list :
  (forall page position,
      asks_for (query page) position <-> page = position / PAGE_SIZE)
  /\ (forall total,
      hasPagination total = false
      <-> forall position, 0 <= position < total -> asks_for (query 0) position).
Proof.
  unfold asks_for, query, hasPagination, PAGE_SIZE. cbn [limit offset]. split.
  - intros page position. split.
    + intros Hwindow. apply (Z.div_unique position 20 page (position - 20 * page)); lia.
    + intros ->. pose proof (Z.div_mod position 20 ltac:(lia)).
      pose proof (Z.mod_pos_bound position 20 ltac:(lia)). lia.
  - intros total. rewrite Z.ltb_ge. split.
    + intros Hsmall position Hposition. lia.
    + intros Hall. destruct (Z_lt_le_dec 20 total) as [Hbig | Hsmall]; [| exact Hsmall].
      specialize (Hall 20). lia.
Qed.

(* ===================================================================== *)
(** * How the two jobs relate *)
(* ===================================================================== *)

(** X15. By the time the abandonment email is due, so is the follow-up
    email: in a world where a run of the abandonment job writes to someone,
    a run of the follow-up job writes too, provided its own setting is still
    false and some superuser is active. *)
Theorem abandonment_due_implies_follow_up_due w admin u :
  abandonment_due w = Some admin ->
  setting_follow_up_email_sent w = false ->
  In u (User_table w) -> is_superuser u = true -> is_active u = true ->
  exists recipient,
    follow_up_due w = Some recipient
    /\ send_attempts (journal (snd (FollowUpEmail w)))
       = send_attempts (journal w) ++ [(email recipient, "follow-up")].
Proof.
  intros Hdue Hsent Hin Hsuper Hactive.
  unfold abandonment_due in Hdue.
  destruct (setting_abandonment_email_sent w); [discriminate |].
  destruct (smtp_configured w && setting_anon_tracking_enabled w) eqn:Hmail;
    [| discriminate].
  destruct (administrator w); [| discriminate].
  destruct (should_send_abandoment_email_4 _ _ _ _ _) eqn:Hshould; [| discriminate].
  apply abandonment_predicate_conditions in Hshould as ((created & Hcreated & Hage) & _).
  destruct (select_one_exists (fun u => is_superuser u && is_active u)
              (User_table w) u Hin) as [recipient Hrecipient];
    [by rewrite Hsuper, Hactive |].
  assert (older_than (clock w) created (weeks 2) = true) as Hgate.
  { apply older_than_true. unfold weeks in *. lia. }
  assert (follow_up_due w = Some recipient) as Hfollow.
  { unfold follow_up_due. rewrite Hsent, Hcreated, Hgate. cbn [andb].
    by rewrite Hmail. }
  exists recipient. split; [exact Hfollow |].
  rewrite FollowUpEmail_due, Hfollow. cbn [snd journal with_follow_up_email_sent].
  apply after_attempt_sends.
Qed.

Lemma abandonment_due_implies_follow_up_due_witness :
  exists recipient,
    follow_up_due (instance (weeks 5) [founder] [] [] true true None) = Some recipient
    /\ send_attempts
         (journal (snd (FollowUpEmail (instance (weeks 5) [founder] [] [] true true None))))
       = send_attempts (journal (instance (weeks 5) [founder] [] [] true true None))
         ++ [(email recipient, "follow-up")].
Proof.
  apply (abandonment_due_implies_follow_up_due
           (instance (weeks 5) [founder] [] [] true true None) founder founder);
    try reflexivity.
  by left.
Defined.

(** X16. A setting is never burnt without an attempt: for either job, the
    run changes its setting exactly when it makes a send attempt, and then
    the setting goes from false to true.  A run that stops at a guard
    leaves the setting as it was. *)
Theorem setting_changes_only_with_an_attempt w :
  (setting_follow_up_email_sent (snd (FollowUpEmail w)) <> setting_follow_up_email_sent w
   <-> send_attempts (journal (snd (FollowUpEmail w))) <> send_attempts (journal w))
  /\ (setting_abandonment_email_sent (snd (AbandonmentEmail w))
      <> setting_abandonment_email_sent w
      <-> send_attempts (journal (snd (AbandonmentEmail w))) <> send_attempts (journal w))
  /\ (send_attempts (journal (snd (FollowUpEmail w))) <> send_attempts (journal w) ->
      setting_follow_up_email_sent w = false
      /\ setting_follow_up_email_sent (snd (FollowUpEmail w)) = true)
  /\ (send_attempts (journal (snd (AbandonmentEmail w))) <> send_attempts (journal w) ->
      setting_abandonment_email_sent w = false
      /\ setting_abandonment_email_sent (snd (AbandonmentEmail w)) = true).
Proof.
  assert (forall (l : list (string * string)) x, l ++ [x] <> l) as Hgrow.
  { intros l x H. apply (f_equal length) in H. rewrite length_app in H. simpl in H. lia. }
  destruct (FollowUpEmail_effect w) as [HF | (HF0 & HF1 & _ & f & _ & HFj)];
    destruct (AbandonmentEmail_effect w) as [HA | (HA0 & HA1 & _ & a & _ & HAj)];
    rewrite ?HF, ?HA, ?HF0, ?HF1, ?HA0, ?HA1, ?HFj, ?HAj;
    repeat split; try done; intros; try apply Hgrow.
Qed.

Lemma setting_changes_only_with_an_attempt_witness :
  setting_follow_up_email_sent (instance (weeks 3) [founder] [] [] true true None) = false
  /\ setting_follow_up_email_sent
       (snd (FollowUpEmail (instance (weeks 3) [founder] [] [] true true None))) = true.
Proof.
  apply (proj1 (proj2 (proj2 (setting_changes_only_with_an_attempt
                                (instance (weeks 3) [founder] [] [] true true None))))).
  discriminate.
Defined.

(* ===================================================================== *)
(** * The details permission cell *)
(* ===================================================================== *)

Import DetailsPermission.

(** X17. [buildDetailsPermission] builds a cell for the "schemas" subject
    only.  The cell shows what [getDetailsPermission] reads, so "no" for a
    group or database the graph has no details entry for; it consults the
    warning function with that same value, the default group's value and the
    ranking "yes" before "no"; and it is disabled and highlighted together,
    exactly for an admin group. *)
Theorem details_cell_for_schemas_only
    (getWarning : JsValue -> JsValue -> string -> Group -> Z -> list string -> option string)
    (UNABLE : string) entityId groupId isAdmin permissions defaultGroup :
  (forall permissionSubject,
      permissionSubject <> "schemas" ->
      buildDetailsPermission getWarning UNABLE entityId groupId isAdmin permissions
        defaultGroup permissionSubject = None)
  /\ exists c,
      buildDetailsPermission getWarning UNABLE entityId groupId isAdmin permissions
        defaultGroup "schemas" = Some c
      /\ cell_value c = getDetailsPermission permissions groupId (databaseId entityId)
      /\ (entry_at permissions
            [ToString groupId; ToString (databaseId entityId); "details"] = None ->
          cell_value c = JsString "no")
      /\ cell_warning c
         = getWarning (cell_value c)
             (getDetailsPermission permissions (group_id defaultGroup) (databaseId entityId))
             "schemas" defaultGroup groupId ["yes"; "no"]
      /\ cell_isDisabled c = isAdmin
      /\ cell_isHighlighted c = isAdmin.
Proof.
  split.
  - intros permissionSubject Hother. unfold buildDetailsPermission.
    by destruct (decide (permissionSubject <> "schemas")).
  - unfold buildDetailsPermission.
    destruct (decide ("schemas" <> "schemas")) as [Hne | _]; [done |].
    eexists. split; [reflexivity |]. cbn [cell_value cell_warning cell_isDisabled
                                          cell_isHighlighted].
    repeat split.
    intros Hmissing. unfold getDetailsPermission.
    by rewrite (getIn_no_entry _ _ Hmissing).
Qed.

Lemma details_cell_for_schemas_only_witness :
  buildDetailsPermission (fun _ _ _ _ _ _ => None) "locked" (mkEntityId 7) 3 false
    (JsObject ∅) (mkGroup 1 "All Users") "tables" = None.
Proof.
  apply (proj1 (details_cell_for_schemas_only (fun _ _ _ _ _ _ => None) "locked"
                  (mkEntityId 7) 3 false (JsObject ∅) (mkGroup 1 "All Users"))).
  discriminate.
Defined.
